(** * Contact form handler (js/form-handler.js)

    A shallow embedding of the client-side validation and submission logic
    of the contact form, and the properties of it that the design
    specification states.

    - JavaScript strings are sequences of UTF-16 code units ([jsstring]);
      [length] on them is the [.length] of the source.
    - The regular-expression literals of the source are terms of a small
      regular-expression type, run by a derivative matcher.
    - The elements that the script obtained from the document are kept in a
      store keyed by their id; the script mutates them in place, so every
      function that writes to an element takes the page and returns it. *)

From Stdlib Require Import NArith.
From stdpp Require Import base option list strings gmap fin_maps.

Set Default Proof Using "Type".
Open Scope string_scope.
Open Scope list_scope.
Open Scope nat_scope.

(** ** Strings *)

Module JsString.

(** A string value: its UTF-16 code units. *)
Definition jsstring : Type := list N.

(** A literal of the source (all of them are ASCII). *)
Definition lit (s : string) : jsstring :=
  (λ a, N.of_nat (Ascii.nat_of_ascii a)) <$> String.list_ascii_of_string s.

(** Truthiness of a string: only [''] is falsy. *)
Definition truthy (s : jsstring) : bool :=
  match s with [] => false | _ :: _ => true end.

(** WhiteSpace and LineTerminator code units of ECMAScript: what
    [String.prototype.trim] strips and what [\s] matches. *)
Definition isWhiteSpace (c : N) : bool :=
  ((9 <=? c) && (c <=? 13)                 (* TAB LF VT FF CR *)
   || (c =? 32)                            (* SPACE *)
   || (c =? 160)                           (* NO-BREAK SPACE *)
   || (c =? 5760)                          (* U+1680 *)
   || ((8192 <=? c) && (c <=? 8202))       (* U+2000 .. U+200A *)
   || (c =? 8232) || (c =? 8233)           (* U+2028, U+2029 *)
   || (c =? 8239) || (c =? 8287)           (* U+202F, U+205F *)
   || (c =? 12288)                         (* U+3000 *)
   || (c =? 65279))%N.                     (* U+FEFF *)

Fixpoint trimStart (s : jsstring) : jsstring :=
  match s with
  | c :: s' => if isWhiteSpace c then trimStart s' else s
  | [] => []
  end.

Definition trimEnd (s : jsstring) : jsstring := rev (trimStart (rev s)).

(** [value.trim()] *)
Definition trim (s : jsstring) : jsstring := trimEnd (trimStart s).

(** Surrogate code units. *)
Definition isHighSurrogate (c : N) : bool := ((55296 <=? c) && (c <=? 56319))%N.
Definition isLowSurrogate (c : N) : bool := ((56320 <=? c) && (c <=? 57343))%N.

(** The conversion to a scalar value string that the platform applies to
    the values of a [FormData]: a surrogate that is not part of a pair
    becomes U+FFFD. *)
Fixpoint toScalarValues (s : jsstring) : jsstring :=
  match s with
  | [] => []
  | c :: s' =>
      if isHighSurrogate c then
        match s' with
        | d :: s'' =>
            if isLowSurrogate d then c :: d :: toScalarValues s''
            else 65533%N :: toScalarValues s'
        | [] => [65533%N]
        end
      else if isLowSurrogate c then 65533%N :: toScalarValues s'
      else c :: toScalarValues s'
  end.

End JsString.
Export JsString.

(** ** Regular expressions *)

Module RegExp.

(** The fragment of the pattern syntax that the two literals of the source
    use: character classes, concatenation and [+]. *)
Inductive regex : Type :=
| Void : regex
| Eps : regex
| Class (p : N → bool) : regex
| Cat (r1 r2 : regex) : regex
| Alt (r1 r2 : regex) : regex
| Star (r : regex) : regex.

(** [r+] *)
Definition Plus (r : regex) : regex := Cat r (Star r).

(** A single literal character. *)
Definition Chr (c : N) : regex := Class (N.eqb c).

Fixpoint nullable (r : regex) : bool :=
  match r with
  | Void => false
  | Eps => true
  | Class _ => false
  | Cat r1 r2 => nullable r1 && nullable r2
  | Alt r1 r2 => nullable r1 || nullable r2
  | Star _ => true
  end.

Fixpoint deriv (c : N) (r : regex) : regex :=
  match r with
  | Void => Void
  | Eps => Void
  | Class p => if p c then Eps else Void
  | Cat r1 r2 =>
      if nullable r1
      then Alt (Cat (deriv c r1) r2) (deriv c r2)
      else Cat (deriv c r1) r2
  | Alt r1 r2 => Alt (deriv c r1) (deriv c r2)
  | Star r1 => Cat (deriv c r1) (Star r1)
  end.

(** [/^r$/.test(s)]: the whole of [s] is matched by [r].  The literals
    of the source carry no flag, so matching is by code unit and [$] is
    the end of the input. *)
Fixpoint test (r : regex) (s : jsstring) : bool :=
  match s with
  | [] => nullable r
  | c :: s' => test (deriv c r) s'
  end.

(** The words of a pattern. *)
Inductive lang : regex → jsstring → Prop :=
| lang_eps : lang Eps []
| lang_class p c : p c = true → lang (Class p) [c]
| lang_cat r1 r2 s1 s2 : lang r1 s1 → lang r2 s2 → lang (Cat r1 r2) (s1 ++ s2)
| lang_alt_l r1 r2 s : lang r1 s → lang (Alt r1 r2) s
| lang_alt_r r1 r2 s : lang r2 s → lang (Alt r1 r2) s
| lang_star_nil r : lang (Star r) []
| lang_star_app r s1 s2 : lang r s1 → lang (Star r) s2 → lang (Star r) (s1 ++ s2).

End RegExp.
Export RegExp.

(** ** Field validators (lines 43-111) *)

(** [\d] *)
Definition isDigit (c : N) : bool := ((48 <=? c) && (c <=? 57))%N.

(** [[^\s@]] *)
Definition notSpaceAt (c : N) : bool := negb (isWhiteSpace c || (c =? 64)%N).

(** [[\d\s\-\+\(\)]] *)
Definition phoneClass (c : N) : bool :=
  (isDigit c || isWhiteSpace c
   || (c =? 45) || (c =? 43) || (c =? 40) || (c =? 41))%N.

(** [/^[^\s@]+@[^\s@]+\.[^\s@]+$/] *)
Definition emailRegex : regex :=
  Cat (Plus (Class notSpaceAt))
    (Cat (Chr 64)
       (Cat (Plus (Class notSpaceAt))
          (Cat (Chr 46) (Plus (Class notSpaceAt))))).

(** [/^[\d\s\-\+\(\)]+$/] *)
Definition phoneRegex : regex := Plus (Class phoneClass).

(** [!value || value.trim().length === 0] *)
Definition blank (value : jsstring) : bool :=
  negb (truthy value) || (length (trim value) =? 0).

Definition validateName (value : jsstring) : jsstring :=
  if blank value then lit "Name is required"
  else if length (trim value) <? 2 then lit "Name must be at least 2 characters"
  else if 100 <? length (trim value) then lit "Name must be less than 100 characters"
  else [].

Definition validateEmail (value : jsstring) : jsstring :=
  if blank value then lit "Email is required"
  else if negb (test emailRegex value) then lit "Please enter a valid email address"
  else [].

Definition validatePhone (value : jsstring) : jsstring :=
  if blank value then []
  else if negb (test phoneRegex value) then lit "Please enter a valid phone number"
  else [].

Definition validateSubject (value : jsstring) : jsstring :=
  if blank value then lit "Please select a subject"
  else [].

Definition validateMessage (value : jsstring) : jsstring :=
  if blank value then lit "Message is required"
  else if length (trim value) <? 10 then lit "Message must be at least 10 characters"
  else if 2000 <? length (trim value) then lit "Message must be less than 2000 characters"
  else [].

(** ** The page *)

Module Dom.

(** An element of the document, with the properties and attributes that
    the script reads or writes.  The controls of the form are inputs, a
    select and a textarea: their [value] is always a string. *)
Record Element : Type := mkElement {
  value : jsstring;                (* .value *)
  defaultValue : jsstring;         (* what form.reset() restores *)
  form : bool;                     (* a control owned by the contact form *)
  textContent : jsstring;          (* .textContent *)
  display : jsstring;              (* .style.display *)
  ariaInvalid : option jsstring;   (* getAttribute('aria-invalid'); None is null *)
  role : option jsstring;          (* getAttribute('role') *)
  classError : bool;               (* classList.contains('error') *)
  disabled : bool                  (* .disabled *)
}.

Definition setValue (v : jsstring) (e : Element) : Element :=
  mkElement v (defaultValue e) (form e) (textContent e) (display e)
    (ariaInvalid e) (role e) (classError e) (disabled e).

Definition setTextContent (t : jsstring) (e : Element) : Element :=
  mkElement (value e) (defaultValue e) (form e) t (display e)
    (ariaInvalid e) (role e) (classError e) (disabled e).

Definition setDisplay (d : jsstring) (e : Element) : Element :=
  mkElement (value e) (defaultValue e) (form e) (textContent e) d
    (ariaInvalid e) (role e) (classError e) (disabled e).

Definition setAriaInvalid (a : jsstring) (e : Element) : Element :=
  mkElement (value e) (defaultValue e) (form e) (textContent e) (display e)
    (Some a) (role e) (classError e) (disabled e).

Definition setRole (r : jsstring) (e : Element) : Element :=
  mkElement (value e) (defaultValue e) (form e) (textContent e) (display e)
    (ariaInvalid e) (Some r) (classError e) (disabled e).

Definition setClassError (b : bool) (e : Element) : Element :=
  mkElement (value e) (defaultValue e) (form e) (textContent e) (display e)
    (ariaInvalid e) (role e) b (disabled e).

Definition setDisabled (b : bool) (e : Element) : Element :=
  mkElement (value e) (defaultValue e) (form e) (textContent e) (display e)
    (ariaInvalid e) (role e) (classError e) b.

(** The object built at lines 244-250 and handed to the submission
    function.  [formData.get] is null when the form has no such control. *)
Record FormData : Type := mkFormData {
  data_name : option jsstring;
  data_email : option jsstring;
  data_phone : jsstring;
  data_subject : option jsstring;
  data_message : option jsstring
}.

(** The callbacks that the script passes to [setTimeout]. *)
Inductive Callback : Type :=
| SubmissionDone (data : FormData)                 (* lines 287-297 *)
| ResetAfterSuccess (originalButtonText : jsstring). (* lines 267-271 *)

#[global] Instance FormData_eq_dec : EqDecision FormData.
Proof. solve_decision. Defined.

#[global] Instance Callback_eq_dec : EqDecision Callback.
Proof. solve_decision. Defined.

(** The state that the script reads and writes.
    - [nodes]: the elements that [document.getElementById] returns, by
      id; an id without element stands for the null that the call
      returns.  Elements with different ids are different objects.
    - [submitButton]: what [contactForm.querySelector] finds for
      [button[type=submit]], an element apart from those of [nodes].
    - [activeElement]: the id of the element that has the focus.
    - [timers]: the pending [setTimeout] calls, delay in milliseconds.
    - [sent]: the calls made to the submission function so far. *)
Record Page : Type := mkPage {
  nodes : gmap string Element;
  submitButton : option Element;
  activeElement : option string;
  timers : list (nat * Callback);
  sent : list FormData
}.

Definition setNode (id : string) (e : Element) (p : Page) : Page :=
  mkPage (<[id := e]> (nodes p)) (submitButton p) (activeElement p)
    (timers p) (sent p).

Definition setSubmitButton (b : Element) (p : Page) : Page :=
  mkPage (nodes p) (Some b) (activeElement p) (timers p) (sent p).

(** The element with this id becomes the focused element. *)
Definition setActiveElement (id : string) (p : Page) : Page :=
  mkPage (nodes p) (submitButton p) (Some id) (timers p) (sent p).

(** [setTimeout(callback, delay)] *)
Definition setTimeout (callback : Callback) (delay : nat) (p : Page) : Page :=
  mkPage (nodes p) (submitButton p) (activeElement p)
    (timers p ++ [(delay, callback)]) (sent p).

(** [contactForm.reset()]: every control of the form goes back to its
    default value. *)
Definition reset (p : Page) : Page :=
  mkPage ((λ e, if form e then setValue (defaultValue e) e else e) <$> nodes p)
    (submitButton p) (activeElement p) (timers p) (sent p).

(** [new FormData(contactForm).get(name)]; the controls of the page carry
    their id as name.  The entry list of a form leaves out a control that
    is disabled, and holds the values as scalar value strings.  The
    textarea is taken without hard wrapping, so that its entry is its
    [value]. *)
Definition formData_get (name : string) (p : Page) : option jsstring :=
  match nodes p !! name with
  | Some e =>
      if form e && negb (disabled e) then Some (toScalarValues (value e)) else None
  | None => None
  end.

End Dom.
Export Dom.

(** ** The fields (lines 12-41) *)

(** An entry of [formFields].  [element] and [error] are the ids given to
    [document.getElementById]; the reference held by the entry is
    [nodes p !! element], null when the page has no such element.
    [required] is [None] where the literal has no such property. *)
Record Field : Type := mkField {
  element : string;
  error : string;
  validator : jsstring → jsstring;
  required : option bool
}.

(** The object literal, as the list of its own properties in insertion
    order, which is the order of [Object.keys]. *)
Definition formFields : list (string * Field) :=
  [ ("name", mkField "name" "name-error" validateName None);
    ("email", mkField "email" "email-error" validateEmail None);
    ("phone", mkField "phone" "phone-error" validatePhone (Some false));
    ("subject", mkField "subject" "subject-error" validateSubject None);
    ("message", mkField "message" "message-error" validateMessage None) ].

(** [Object.keys(obj)] *)
Definition keys {A} (obj : list (string * A)) : list string := obj.*1.

(** [obj[key]], [None] for undefined.  A key that [formFields] only
    inherits from [Object.prototype] gives a value without [element] and
    without [error]; the guards of the source treat it as they treat
    undefined. *)
Fixpoint get {A} (obj : list (string * A)) (key : string) : option A :=
  match obj with
  | [] => None
  | (k, v) :: obj' => if String.eqb k key then Some v else get obj' key
  end.

(** [document.getElementById('form-success')] *)
Definition successMessage : string := "form-success".

(** ** Error display (lines 113-141) *)

Definition showError (fieldName : string) (message : jsstring) (p : Page) : Page :=
  match get formFields fieldName with
  | Some field =>
      match nodes p !! error field with
      | Some err =>
          let p1 :=
            setNode (error field)
              (setDisplay (lit "block") (setTextContent message err)) p in
          match nodes p1 !! element field with
          | Some el =>
              setNode (element field)
                (setClassError true (setAriaInvalid (lit "true") el)) p1
          | None => p1
          end
      | None => p
      end
  | None => p
  end.

Definition clearError (fieldName : string) (p : Page) : Page :=
  match get formFields fieldName with
  | Some field =>
      match nodes p !! error field with
      | Some err =>
          let p1 :=
            setNode (error field)
              (setDisplay (lit "none") (setTextContent [] err)) p in
          match nodes p1 !! element field with
          | Some el =>
              setNode (element field)
                (setClassError false (setAriaInvalid (lit "false") el)) p1
          | None => p1
          end
      | None => p
      end
  | None => p
  end.

(** ** Validation (lines 143-182) *)

Definition validateField (fieldName : string) (p : Page) : bool * Page :=
  match get formFields fieldName with
  | None => (true, p)
  | Some field =>
      match nodes p !! element field with
      | None => (true, p)
      | Some el =>
          let value := value el in
          let isRequired := negb (bool_decide (required field = Some false)) in
          if negb isRequired && blank value then (true, clearError fieldName p)
          else
            let error := validator field value in
            if truthy error then (false, showError fieldName error p)
            else (true, clearError fieldName p)
      end
  end.

(** One turn of the [forEach] callback of [validateForm]. *)
Definition validateForm_each (acc : bool * Page) (fieldName : string) : bool * Page :=
  let (ok, p') := validateField fieldName acc.2 in
  (if negb ok then false else acc.1, p').

Definition validateForm (p : Page) : bool * Page :=
  foldl validateForm_each (true, p) (keys formFields).

(** ** Live revalidation (lines 301-320) *)

(** The listeners that [init] puts on the control of a field.  [init]
    registers them only for an entry whose control is in the page; with no
    control there is no listener, and the page stays as it is. *)

(** Lines 309-311: the control loses the focus. *)
Definition onBlur (fieldName : string) (p : Page) : Page :=
  match get formFields fieldName with
  | Some field =>
      match nodes p !! element field with
      | Some _ => (validateField fieldName p).2
      | None => p
      end
  | None => p
  end.

(** Lines 314-318: the value of the control has changed. *)
Definition onInput (fieldName : string) (p : Page) : Page :=
  match get formFields fieldName with
  | Some field =>
      match nodes p !! element field with
      | Some el =>
          if bool_decide (ariaInvalid el = Some (lit "true"))
          then (validateField fieldName p).2
          else p
      | None => p
      end
  | None => p
  end.

(** The name of the field whose control has this id, the control on
    which [init] has put the listeners of the field. *)
Definition fieldOf (id : string) : option string :=
  fst <$> List.find (λ kv : string * Field, String.eqb (element kv.2) id) formFields.

(** The blur event on the element with this id. *)
Definition blur (id : string) (p : Page) : Page :=
  match fieldOf id with
  | Some fieldName => onBlur fieldName p
  | None => p
  end.

(** [element.focus()] for the element with this id: the element that has
    the focus loses it, its blur listener runs, and the focus moves.  The
    elements on which the script calls [focus()] are taken to be
    focusable. *)
Definition focus (id : string) (p : Page) : Page :=
  setActiveElement id
    match activeElement p with
    | Some old => if bool_decide (old = id) then p else blur old p
    | None => p
    end.

(** ** Success indicator and reset (lines 184-216) *)

(** [scrollIntoView] moves the viewport only and is left out. *)
Definition showSuccess (p : Page) : Page :=
  match nodes p !! successMessage with
  | Some el =>
      focus successMessage
        (setNode successMessage (setRole (lit "alert") (setDisplay (lit "block") el)) p)
  | None => p
  end.

Definition hideSuccess (p : Page) : Page :=
  match nodes p !! successMessage with
  | Some el => setNode successMessage (setDisplay (lit "none") el) p
  | None => p
  end.

Definition resetForm (p : Page) : Page :=
  hideSuccess (foldl (λ q fieldName, clearError fieldName q) (reset p) (keys formFields)).

(** ** Submission (lines 218-299) *)

(** The submission function of the source: it logs the data and resolves
    after a second.  The call is recorded in [sent]. *)
Definition simulateFormSubmission (data : FormData) (p : Page) : Page :=
  setTimeout (SubmissionDone data) 1000
    (mkPage (nodes p) (submitButton p) (activeElement p) (timers p) (sent p ++ [data])).

(** How the awaited promise settles.  The submission function of the
    source always fulfils; one that replaces it may reject with any
    reason. *)
Inductive Settled (E : Type) : Type :=
| Fulfilled : Settled E
| Rejected (reason : E) : Settled E.
Arguments Fulfilled {E}.
Arguments Rejected {E} reason.

(** Where the synchronous part of [handleSubmit] ends. *)
Inductive Outcome : Type :=
| Returned                                    (* line 239 *)
| Threw                                       (* reading a property of null, line 254 *)
| Awaiting (originalButtonText : jsstring).     (* suspended at line 261 *)

(** The callback of [find] at lines 230-233. *)
Definition markedInvalid (p : Page) (fieldName : string) : bool :=
  match get formFields fieldName with
  | Some field =>
      match nodes p !! element field with
      | Some el => bool_decide (ariaInvalid el = Some (lit "true"))
      | None => false
      end
  | None => false
  end.

(** Lines 229-237. *)
Definition focusFirstError (p : Page) : Page :=
  match List.find (markedInvalid p) (keys formFields) with
  | Some firstError =>
      match get formFields firstError with
      | Some field =>
          match nodes p !! element field with
          | Some _ => focus (element field) p
          | None => p
          end
      | None => p
      end
  | None => p
  end.

(** Lines 243-250. *)
Definition formData (p : Page) : FormData :=
  mkFormData (formData_get "name" p) (formData_get "email" p)
    (match formData_get "phone" p with
     | Some v => if truthy v then v else []
     | None => []
     end)
    (formData_get "subject" p) (formData_get "message" p).

(** Lines 227-261, from the validation up to the [await]. *)
Definition handleSubmit_validate (p : Page) : Outcome * Page :=
  let (isValid, p) := validateForm p in
  if negb isValid then (Returned, focusFirstError p)
  else
    let data := formData p in
    match submitButton p with
    | None => (Threw, p)
    | Some button =>
        let originalButtonText := textContent button in
        let p := setSubmitButton
                   (setTextContent (lit "Sending...") (setDisabled true button)) p in
        (Awaiting originalButtonText, simulateFormSubmission data p)
    end.

(** Lines 221-261: [handleSubmit] up to the point where it returns, throws
    or is suspended.  [e.preventDefault()] acts on the event only. *)
Definition handleSubmit (p : Page) : Outcome * Page :=
  handleSubmit_validate (hideSuccess p).

(** [submitButton] inside the continuations is the element captured at line
    253, which [handleSubmit_validate] found present. *)
Definition restoreButton (originalButtonText : jsstring) (p : Page) : Page :=
  match submitButton p with
  | Some button =>
      setSubmitButton (setTextContent originalButtonText (setDisabled false button)) p
  | None => p
  end.

(** Lines 263-271: the promise is fulfilled. *)
Definition handleSubmit_fulfilled (originalButtonText : jsstring) (p : Page) : Page :=
  setTimeout (ResetAfterSuccess originalButtonText) 3000 (showSuccess p).

(** The text of line 275. *)
Definition failureMessage : jsstring :=
  lit "Failed to send message. Please try again or contact us directly.".

(** Lines 273-278: the promise is rejected. *)
Definition handleSubmit_rejected {E} (error : E) (originalButtonText : jsstring)
    (p : Page) : Page :=
  restoreButton originalButtonText (showError "message" failureMessage p).

(** Lines 261-278: [handleSubmit] resumed when the promise settles. *)
Definition handleSubmit_resume {E} (r : Settled E) (originalButtonText : jsstring)
    (p : Page) : Page :=
  match r with
  | Fulfilled => handleSubmit_fulfilled originalButtonText p
  | Rejected error => handleSubmit_rejected error originalButtonText p
  end.

(** Lines 267-271: the body of the timer callback. *)
Definition resetAfterSuccess (originalButtonText : jsstring) (p : Page) : Page :=
  restoreButton originalButtonText (resetForm p).

(** ** The life of one submission attempt *)

Module Attempt.

Inductive SubmissionState : Type :=
| Idle | Validating | Sending | Succeeded | Failed.

(** The point that one activation of [handleSubmit] has reached, with the
    variables that its continuation has captured. *)
Inductive Control (E : Type) : Type :=
| NotRunning                                          (* no activation *)
| Entered                                             (* lines 222-225 done *)
| Suspended (originalButtonText : jsstring)           (* at the await, line 261 *)
| Resolved (originalButtonText : jsstring)            (* lines 264-271 done, timer pending *)
| Caught (error : E) (originalButtonText : jsstring). (* entering the catch, line 273 *)
Arguments NotRunning {E}.
Arguments Entered {E}.
Arguments Suspended {E} originalButtonText.
Arguments Resolved {E} originalButtonText.
Arguments Caught {E} error originalButtonText.

Definition state {E} (c : Control E) : SubmissionState :=
  match c with
  | NotRunning => Idle
  | Entered => Validating
  | Suspended _ => Sending
  | Resolved _ => Succeeded
  | Caught _ _ => Failed
  end.

(** What makes the activation move on.  The promise of the simulation is
    fulfilled when its timer runs out (lines 287-297); [Settle] is for a
    submission function put in its place (lines 259 and 289-293), which may
    fulfil or reject. *)
Inductive Event (E : Type) : Type :=
| SubmitRequested                 (* the submit event is dispatched *)
| Run                             (* the handler goes on, no waiting *)
| Settle (r : Settled E)          (* the awaited promise settles *)
| TimerFired (delay : nat) (callback : Callback). (* a timer runs out *)
Arguments SubmitRequested {E}.
Arguments Run {E}.
Arguments Settle {E} r.
Arguments TimerFired {E} delay callback.

(** The delay in milliseconds of the timer whose running out is the event;
    0 for an event that is no timer. *)
Definition waited {E} (ev : Event E) : nat :=
  match ev with
  | TimerFired delay _ => delay
  | _ => 0
  end.

(** Remove the first pending timer equal to [t]; [None] if there is none. *)
Fixpoint takeTimer (t : nat * Callback) (ts : list (nat * Callback))
    : option (list (nat * Callback)) :=
  match ts with
  | [] => None
  | t' :: ts' =>
      if bool_decide (t = t') then Some ts'
      else (λ r, t' :: r) <$> takeTimer t ts'
  end.

Definition setTimers (ts : list (nat * Callback)) (p : Page) : Page :=
  mkPage (nodes p) (submitButton p) (activeElement p) ts (sent p).

Definition step {E} (c : Control E) (ev : Event E) (p : Page)
    : option (Control E * Page) :=
  match c, ev with
  | NotRunning, SubmitRequested => Some (Entered, hideSuccess p)
  | Entered, Run =>
      match handleSubmit_validate p with
      | (Returned, p') => Some (NotRunning, p')
      | (Threw, p') => Some (NotRunning, p')
      | (Awaiting text, p') => Some (Suspended text, p')
      end
  | Suspended text, TimerFired delay (SubmissionDone data) =>
      match takeTimer (delay, SubmissionDone data) (timers p) with
      | Some ts => Some (Resolved text, handleSubmit_fulfilled text (setTimers ts p))
      | None => None
      end
  | Suspended text, Settle Fulfilled =>
      Some (Resolved text, handleSubmit_fulfilled text p)
  | Suspended text, Settle (Rejected error) => Some (Caught error text, p)
  | Caught error text, Run =>
      Some (NotRunning, handleSubmit_rejected error text p)
  | Resolved text, TimerFired delay (ResetAfterSuccess text') =>
      match takeTimer (delay, ResetAfterSuccess text') (timers p) with
      | Some ts =>
          if bool_decide (text = text')
          then Some (NotRunning, resetAfterSuccess text' (setTimers ts p))
          else None
      | None => None
      end
  | _, _ => None
  end.

(** The configurations that an activation goes through on a sequence of
    events, up to the first event that it does not take. *)
Fixpoint run {E} (c : Control E) (p : Page) (evs : list (Event E))
    : list (Control E * Page) :=
  match evs with
  | [] => []
  | ev :: evs' =>
      match step c ev p with
      | Some (c', p') => (c', p') :: run c' p' evs'
      | None => []
      end
  end.

(** The pending timers have the delays of the two [setTimeout] calls of
    the script (lines 271 and 297). *)
Definition timersOk (p : Page) : Prop :=
  Forall (λ t : nat * Callback,
            match t.2 with
            | SubmissionDone _ => t.1 = 1000
            | ResetAfterSuccess _ => t.1 = 3000
            end) (timers p).

(** The transitions that the specification allows. *)
Definition allowed (s s' : SubmissionState) : bool :=
  match s, s' with
  | Idle, Validating
  | Validating, Sending
  | Validating, Idle
  | Sending, Succeeded
  | Sending, Failed
  | Succeeded, Idle
  | Failed, Idle => true
  | _, _ => false
  end.

End Attempt.

(** ** The page and its visitor *)

(** [handleSubmit] runs as the listener of the submit event (line 323) and
    nowhere else; the other listeners are those of [init], and the timers
    are those of lines 267 and 287.  A session is what the visitor and the
    clock make of the page: each action runs to its end before the next
    begins. *)
Module Session.

(** The promise of one call of the submission function. *)
Inductive Promise : Type :=
| Awaited (originalButtonText : jsstring)  (* an activation is suspended on it, line 261 *)
| Discarded.                               (* rejected before its timer has run out *)

(** The promises whose timers are pending, the oldest first, and the
    page. *)
Record State : Type := mkState {
  promises : list Promise;
  page : Page
}.

Inductive Action (E : Type) : Type :=
| Submit                                   (* the visitor activates the submit control *)
| Focus (id : string)                      (* the visitor moves the focus to an element *)
| Unfocus                                  (* the focus leaves the focused element *)
| Typed (id : string) (v : jsstring)       (* the visitor changes the value of a control *)
| TimerFired (delay : nat) (callback : Callback)      (* a timer runs out *)
| Reject (n : nat) (reason : E).           (* a submission function put in the place of
                                              the simulation rejects a promise *)
Arguments Submit {E}.
Arguments Focus {E} id.
Arguments Unfocus {E}.
Arguments Typed {E} id v.
Arguments TimerFired {E} delay callback.
Arguments Reject {E} n reason.

Definition start (p : Page) : State := mkState [] p.

(** The label captured by each activation that is suspended at the
    [await]: the attempts that are in the Sending state. *)
Definition sending (st : State) : list jsstring :=
  omap (λ pr, match pr with Awaited text => Some text | Discarded => None end)
    (promises st).

(** Take the pending timer [t] off the list.  Timers set with the same
    delay run out in the order in which they were set. *)
Fixpoint fire (t : nat * Callback) (ts : list (nat * Callback))
    : option (list (nat * Callback)) :=
  match ts with
  | [] => None
  | t' :: ts' =>
      if bool_decide (t = t') then Some ts'
      else if bool_decide (t.1 = t'.1) then None
      else (λ r, t' :: r) <$> fire t ts'
  end.

(** The submit event is dispatched and its listener runs up to the
    [await], to its return or to the exception of line 254. *)
Definition submit (st : State) : State :=
  match handleSubmit (page st) with
  | (Awaiting text, p) => mkState (promises st ++ [Awaited text]) p
  | (_, p) => mkState (promises st) p
  end.

(** The focus leaves the focused element and goes to none. *)
Definition unfocus (p : Page) : Page :=
  match activeElement p with
  | Some old =>
      let p := blur old p in
      mkPage (nodes p) (submitButton p) None (timers p) (sent p)
  | None => p
  end.

(** A control of the form that is not disabled gets a new value, and its
    input listener runs. *)
Definition typed (id : string) (v : jsstring) (p : Page) : Page :=
  match nodes p !! id with
  | Some el =>
      if form el && negb (disabled el) then
        let p := setNode id (setValue v el) p in
        match fieldOf id with
        | Some fieldName => onInput fieldName p
        | None => p
        end
      else p
  | None => p
  end.

(** One action.  The visitor asks for a submission by a click on the
    submit control, or by Enter in a field, which the browser turns into a
    click on that control.  A submit control that is disabled cannot be
    activated: no submit event is dispatched, and nothing happens.  With no
    control that line 253 finds, the form may still be submitted by another
    one, and the listener runs.  The timer of the
    simulation settles the oldest promise; it fulfils it unless the
    promise has been rejected before.  [None] for an action that cannot
    happen: a timer that is not pending, or the rejection of a promise
    that is not awaited. *)
Definition step {E} (st : State) (a : Action E) : option State :=
  let p := page st in
  match a with
  | Submit =>
      match submitButton p with
      | Some button => if disabled button then Some st else Some (submit st)
      | None => Some (submit st)
      end
  | Focus id => Some (mkState (promises st) (focus id p))
  | Unfocus => Some (mkState (promises st) (unfocus p))
  | Typed id v => Some (mkState (promises st) (typed id v p))
  | TimerFired delay (SubmissionDone data) =>
      match fire (delay, SubmissionDone data) (timers p), promises st with
      | Some ts, Awaited text :: prs =>
          Some (mkState prs (handleSubmit_fulfilled text (Attempt.setTimers ts p)))
      | Some ts, Discarded :: prs => Some (mkState prs (Attempt.setTimers ts p))
      | _, _ => None
      end
  | TimerFired delay (ResetAfterSuccess text) =>
      match fire (delay, ResetAfterSuccess text) (timers p) with
      | Some ts =>
          Some (mkState (promises st) (resetAfterSuccess text (Attempt.setTimers ts p)))
      | None => None
      end
  | Reject n reason =>
      match promises st !! n with
      | Some (Awaited text) =>
          Some (mkState (<[n := Discarded]> (promises st))
                  (handleSubmit_rejected reason text p))
      | _ => None
      end
  end.

(** The states that a session goes through, up to the first action that
    cannot happen. *)
Fixpoint run {E} (st : State) (actions : list (Action E)) : list State :=
  match actions with
  | [] => []
  | a :: actions' =>
      match step st a with
      | Some st' => st' :: run st' actions'
      | None => []
      end
  end.

(** The timers of line 267 among the pending ones. *)
Definition isReset (t : nat * Callback) : bool :=
  match t.2 with
  | ResetAfterSuccess _ => true
  | SubmissionDone _ => false
  end.

Definition resets (ts : list (nat * Callback)) : nat :=
  length (List.filter isReset ts).

End Session.

(** ** Auxiliary definitions for the statements *)

(** The error text that [validateField] settles on for the value of a field
    (lines 150-159): none for an optional field left blank, else what the
    validator of the field returns. *)
Definition fieldError (field : Field) (value : jsstring) : jsstring :=
  if negb (negb (bool_decide (required field = Some false))) && blank value
  then []
  else validator field value.

(** The characters that the specification lists for a phone number: digits,
    the space, [+], [-] and the two parentheses.  It follows the words of
    the specification, not the source; [phoneClass] is the class of the
    source. *)
Definition specPhoneClass (c : N) : bool :=
  (isDigit c || (c =? 32) || (c =? 43) || (c =? 45) || (c =? 40) || (c =? 41))%N.

(** A page with the control and the error slot of every field. *)
Definition complete (p : Page) : Prop :=
  ∀ fieldName field, get formFields fieldName = Some field →
    is_Some (nodes p !! element field) ∧ is_Some (nodes p !! error field).

(** The states of an attempt in which the handler has taken the submit
    control (lines 255 to 269 or 276). *)
Definition busy (s : Attempt.SubmissionState) : bool :=
  match s with
  | Attempt.Sending | Attempt.Succeeded | Attempt.Failed => true
  | Attempt.Idle | Attempt.Validating => false
  end.

(** What the conversion to scalar values makes of one code unit: itself,
    or U+FFFD if it is a surrogate. *)
Definition scalarOf (c d : N) : Prop :=
  d = c ∨ (isHighSurrogate c || isLowSurrogate c = true ∧ d = 65533%N).

(** The classes of the pattern give the same answer on two code units
    that are related. *)
Fixpoint respects (R : N → N → Prop) (r : regex) : Prop :=
  match r with
  | Class p => ∀ c d, R c d → p c = p d
  | Cat r1 r2 | Alt r1 r2 => respects R r1 ∧ respects R r2
  | Star r1 => respects R r1
  | Void | Eps => True
  end.

(** What stands between two attempts: while an activation waits for its
    promise, or the timer of the reset is pending, the submit control is
    disabled, and there is one such activation or timer at most. *)
Definition guarded (st : Session.State) : Prop :=
  ∃ button, submitButton (Session.page st) = Some button ∧
    length (Session.sending st) + Session.resets (timers (Session.page st)) ≤ 1 ∧
    (disabled button = false →
       length (Session.sending st) + Session.resets (timers (Session.page st)) = 0).

(** Pages to evaluate the handler on. *)
Module Sample.

(** A control of the form holding [v]. *)
Definition input (v : jsstring) : Element :=
  mkElement v [] true [] [] None None false false.

(** An error slot, or the success indicator, not displayed. *)
Definition slot : Element :=
  mkElement [] [] false [] (lit "none") None None false false.

Definition button : Element :=
  mkElement [] [] true (lit "Send Message") [] None None false false.

(** The contact page with the given values in its five controls. *)
Definition page (name email phone subject message : jsstring) : Page :=
  mkPage
    (list_to_map
       [ ("name", input name); ("name-error", slot);
         ("email", input email); ("email-error", slot);
         ("phone", input phone); ("phone-error", slot);
         ("subject", input subject); ("subject-error", slot);
         ("message", input message); ("message-error", slot);
         ("form-success", slot) ])
    (Some button) None [] [].

(** Every field valid, the phone left empty. *)
Definition valid : Page :=
  page (lit "Jo") (lit "jo@x.com") [] (lit "General") (lit "Hello there!").

(** The name valid, the email invalid, the message too short. *)
Definition invalid : Page :=
  page (lit "Jo") (lit "not-an-email") [] (lit "General") (lit "Hi").

(** A page without any of the elements that the script looks up. *)
Definition bare : Page := mkPage ∅ None None [] [].

(** ["1<TAB>2"] *)
Definition tabbed : jsstring := [49; 9; 50]%N.

(** [valid] with its first attempt suspended at the [await]. *)
Definition sending : Page := (handleSubmit valid).2.

(** [sending] after the timer of the simulation has run out and the promise
    has been fulfilled. *)
Definition succeeded : Page :=
  handleSubmit_fulfilled (lit "Send Message") (Attempt.setTimers [] sending).

(** A submission with the simulation of the source. *)
Definition success : list (Attempt.Event nat) :=
  [Attempt.SubmitRequested; Attempt.Run;
   Attempt.TimerFired 1000 (SubmissionDone (formData valid));
   Attempt.TimerFired 3000 (ResetAfterSuccess (lit "Send Message"))].

(** The user puts [v] into the control with this id. *)
Definition typed (id : string) (v : jsstring) (p : Page) : Page :=
  mkPage (alter (setValue v) id (nodes p)) (submitButton p) (activeElement p)
    (timers p) (sent p).

(** [invalid] after a submit, with the email then corrected by the user. *)
Definition corrected : Page := typed "email" (lit "jo@x.com") (handleSubmit invalid).2.

(** [valid] without the error slot of the email. *)
Definition slotless : Page :=
  mkPage (delete "email-error" (nodes (typed "email" (lit "nobody") valid)))
    (Some button) None [] [].

(** A submission that the submission function rejects with a status. *)
Definition rejection : list (Attempt.Event nat) :=
  [Attempt.SubmitRequested; Attempt.Run; Attempt.Settle (Rejected 503); Attempt.Run].

(** [sending] when the timer of the simulation runs out, the visitor
    having gone back to the message and cut it short meanwhile. *)
Definition edited : Page :=
  setActiveElement "message"
    (typed "message" (lit "Hi") (Attempt.setTimers [] sending)).

(** [valid] with an unpaired surrogate at the end of the message. *)
Definition unpaired : Page :=
  page (lit "Jo") (lit "jo@x.com") [] (lit "General")
    (lit "Hello there" ++ [55357%N]).

(** A visitor who asks three times more while the first attempt goes on. *)
Definition visit : list (Session.Action nat) :=
  [Session.Submit; Session.Submit; Session.Typed "name" (lit "Joe"); Session.Submit;
   Session.TimerFired 1000 (SubmissionDone (formData valid)); Session.Submit;
   Session.TimerFired 3000 (ResetAfterSuccess (lit "Send Message"))].

End Sample.

(** * Properties *)

(** ** The matcher decides the words of a pattern *)

Section MatcherCorrect.

Lemma lang_cat_inv r1 r2 s :
  lang (Cat r1 r2) s → ∃ s1 s2, s = s1 ++ s2 ∧ lang r1 s1 ∧ lang r2 s2.
Proof. inversion 1; subst; eauto. Qed.

Lemma lang_alt_inv r1 r2 s : lang (Alt r1 r2) s → lang r1 s ∨ lang r2 s.
Proof. inversion 1; subst; eauto. Qed.

Lemma lang_class_inv p s : lang (Class p) s → ∃ c, s = [c] ∧ p c = true.
Proof. inversion 1; subst; eauto. Qed.

Lemma nullable_lang r : nullable r = true ↔ lang r [].
Proof.
  induction r as [| |p|r1 IH1 r2 IH2|r1 IH1 r2 IH2|r IH]; simpl.
  - split; [done | inversion 1].
  - split; [constructor | done].
  - split; [done | inversion 1].
  - rewrite andb_true_iff, IH1, IH2. split.
    + intros [H1 H2]. by apply (lang_cat _ _ [] []).
    + intros (s1 & s2 & Heq & H1 & H2)%lang_cat_inv.
      symmetry in Heq. apply app_eq_nil in Heq as [-> ->]. by split.
  - rewrite orb_true_iff, IH1, IH2. split.
    + intros [H|H]; [by apply lang_alt_l | by apply lang_alt_r].
    + apply lang_alt_inv.
  - split; [constructor | done].
Qed.

Lemma lang_star_cons r c s :
  lang (Star r) (c :: s) →
  ∃ s1 s2, s = s1 ++ s2 ∧ lang r (c :: s1) ∧ lang (Star r) s2.
Proof.
  intros H. remember (Star r) as R eqn:HR. remember (c :: s) as w eqn:Hw.
  revert s Hw.
  induction H as [| | | | | |r' s1 s2 H1 _ H2 IH2]; intros t Hw; try discriminate.
  injection HR as ->. destruct s1 as [|c' s1]; simpl in Hw.
  - by apply IH2.
  - injection Hw as -> <-. by exists s1, s2.
Qed.

Lemma deriv_lang r : ∀ c s, lang (deriv c r) s ↔ lang r (c :: s).
Proof.
  induction r as [| |p|r1 IH1 r2 IH2|r1 IH1 r2 IH2|r IH]; intros c s; simpl.
  - split; inversion 1.
  - split; inversion 1.
  - destruct (p c) eqn:Hp; split.
    + inversion 1; subst. by constructor.
    + intros (c' & [= -> ->] & _)%lang_class_inv. constructor.
    + inversion 1.
    + intros (c' & [= -> ->] & Hc)%lang_class_inv. congruence.
  - assert (Hcat : lang (Cat (deriv c r1) r2) s → lang (Cat r1 r2) (c :: s)).
    { intros (s1 & s2 & -> & H1 & H2)%lang_cat_inv.
      apply IH1 in H1. by apply (lang_cat _ _ (c :: s1) s2). }
    assert (Hinv : lang (Cat r1 r2) (c :: s) →
              lang (Cat (deriv c r1) r2) s ∨ (lang r1 [] ∧ lang r2 (c :: s))).
    { intros (s1 & s2 & Heq & H1 & H2)%lang_cat_inv.
      destruct s1 as [|c' s1]; simpl in Heq.
      - subst s2. by right.
      - injection Heq as <- ->. left. constructor; [by apply IH1 | done]. }
    destruct (nullable r1) eqn:Hn.
    + apply nullable_lang in Hn. split.
      * intros [H|H]%lang_alt_inv; [by apply Hcat |].
        apply (lang_cat _ _ [] (c :: s)); [done | by apply IH2].
      * intros [H|[_ H]]%Hinv; [by apply lang_alt_l |].
        apply lang_alt_r. by apply IH2.
    + split; [done |].
      intros [H|[H _]]%Hinv; [done |].
      apply nullable_lang in H. congruence.
  - split.
    + intros [H|H]%lang_alt_inv;
        [apply lang_alt_l; by apply IH1 | apply lang_alt_r; by apply IH2].
    + intros [H|H]%lang_alt_inv;
        [apply lang_alt_l; by apply IH1 | apply lang_alt_r; by apply IH2].
  - split.
    + intros (s1 & s2 & -> & H1 & H2)%lang_cat_inv.
      apply IH in H1. by apply (lang_star_app _ (c :: s1) s2).
    + intros (s1 & s2 & -> & H1 & H2)%lang_star_cons.
      constructor; [by apply IH | done].
Qed.

Lemma test_lang r s : test r s = true ↔ lang r s.
Proof.
  revert r. induction s as [|c s IH]; intros r; simpl.
  - apply nullable_lang.
  - rewrite IH. apply deriv_lang.
Qed.

Lemma lang_star_class p s : lang (Star (Class p)) s ↔ forallb p s = true.
Proof.
  split.
  - intros H. remember (Star (Class p)) as R eqn:HR.
    induction H as [| | | | | |r' s1 s2 H1 _ H2 IH2]; try discriminate; [done |].
    injection HR as ->. apply lang_class_inv in H1 as (c & -> & Hc). simpl.
    rewrite Hc. by apply IH2.
  - induction s as [|c s IH]; simpl; [constructor |].
    intros [Hc Hs]%andb_true_iff.
    apply (lang_star_app _ [c] s); [by constructor | by apply IH].
Qed.

(** [/^[...]+$/]: a string passes when it is not empty and all of its
    code units are in the class. *)
Lemma test_plus_class p s :
  test (Plus (Class p)) s = negb (bool_decide (s = [])) && forallb p s.
Proof.
  apply eq_true_iff_eq. rewrite test_lang, andb_true_iff, negb_true_iff,
    bool_decide_eq_false. unfold Plus. split.
  - intros (s1 & s2 & -> & (c & -> & Hc)%lang_class_inv & H2)%lang_cat_inv.
    apply lang_star_class in H2. simpl.
    split; [done |]. by rewrite Hc.
  - intros [Hne Hall]. destruct s as [|c s]; [done |]. simpl in Hall.
    apply andb_true_iff in Hall as [Hc Hs].
    apply (lang_cat _ _ [c] s); [by constructor | by apply lang_star_class].
Qed.

End MatcherCorrect.

(** ** The validators *)

Section Validators.

Implicit Types value : jsstring.

Lemma blank_length value : blank value = (length (trim value) =? 0).
Proof. unfold blank. by destruct value. Qed.

(** [validatePhone] by the code units of the value. *)
Lemma validatePhone_cases value :
  validatePhone value =
    if blank value then []
    else if forallb phoneClass value then []
    else lit "Please enter a valid phone number".
Proof.
  unfold validatePhone, phoneRegex. rewrite test_plus_class.
  destruct (blank value) eqn:Hb; [done |].
  destruct value as [|c value]; [done |].
  rewrite bool_decide_eq_false_2 by done. simpl negb at 2. rewrite andb_true_l.
  by destruct (forallb phoneClass (c :: value)).
Qed.

Lemma forallb_false_elem (p : N → bool) (s : jsstring) c :
  c ∈ s → p c = false → forallb p s = false.
Proof.
  intros Hin Hc. apply not_true_is_false. intros Hall.
  rewrite forallb_forall in Hall. apply list_elem_of_In, Hall in Hin. congruence.
Qed.

End Validators.

(** ** The entries of [formFields] *)

Section Fields.

Lemma get_elem_of {A} (obj : list (string * A)) key v :
  get obj key = Some v → (key, v) ∈ obj.
Proof.
  induction obj as [|[k a] obj IH]; simpl; [done |].
  destruct (String.eqb_spec k key) as [->|_].
  - intros [= ->]. left.
  - intros H. right. by apply IH.
Qed.

Lemma get_not_key {A} (obj : list (string * A)) key :
  key ∉ keys obj → get obj key = None.
Proof.
  unfold keys. induction obj as [|[k a] obj IH]; simpl; [done |].
  rewrite not_elem_of_cons. intros [Hne Hin].
  destruct (String.eqb_spec k key) as [->|_]; [done | by apply IH].
Qed.

Lemma get_formFields_cases fieldName field :
  get formFields fieldName = Some field →
  (fieldName, element field, error field) ∈
    [ ("name", "name", "name-error");
      ("email", "email", "email-error");
      ("phone", "phone", "phone-error");
      ("subject", "subject", "subject-error");
      ("message", "message", "message-error") ].
Proof.
  intros H%get_elem_of. unfold formFields in H.
  repeat (apply elem_of_cons in H as [[= -> ->]|H]; [set_solver |]).
  by apply elem_of_nil in H.
Qed.

(** The two elements of an entry are different elements. *)
Lemma formFields_own_ids fieldName field :
  get formFields fieldName = Some field → element field ≠ error field.
Proof.
  intros H%get_formFields_cases.
  repeat (apply elem_of_cons in H as [[= _ -> ->]|H]; [done |]).
  by apply elem_of_nil in H.
Qed.

(** Two entries share no element. *)
Lemma formFields_disjoint f g F G :
  get formFields f = Some F → get formFields g = Some G → f ≠ g →
  element G ≠ element F ∧ element G ≠ error F ∧
  error G ≠ element F ∧ error G ≠ error F.
Proof.
  intros HF%get_formFields_cases HG%get_formFields_cases Hne.
  repeat (apply elem_of_cons in HF as [[= -> -> ->]|HF];
    [repeat (apply elem_of_cons in HG as [[= -> -> ->]|HG]; [done |]);
     by apply elem_of_nil in HG |]).
  by apply elem_of_nil in HF.
Qed.

(** The success indicator is not an element of any entry. *)
Lemma formFields_not_success fieldName field :
  get formFields fieldName = Some field →
  element field ≠ successMessage ∧ error field ≠ successMessage.
Proof.
  intros H%get_formFields_cases.
  repeat (apply elem_of_cons in H as [[= _ -> ->]|H]; [done |]).
  by apply elem_of_nil in H.
Qed.

Lemma keys_formFields :
  keys formFields = ["name"; "email"; "phone"; "subject"; "message"].
Proof. reflexivity. Qed.

Lemma keys_formFields_NoDup : NoDup (keys formFields).
Proof. rewrite keys_formFields. apply (bool_decide_unpack _). by vm_compute. Qed.

Lemma get_formFields_key fieldName field :
  get formFields fieldName = Some field → fieldName ∈ keys formFields.
Proof.
  intros H. destruct (decide (fieldName ∈ keys formFields)) as [|Hn]; [done |].
  apply get_not_key in Hn. congruence.
Qed.

End Fields.


(** ** What [showError] and [clearError] write *)

Section ErrorDisplay.

Implicit Types (p : Page) (fieldName id : string) (message : jsstring).

(** Both functions have the same shape; these scripts serve both. *)
Local Ltac display_other H :=
  unfold showError, clearError; rewrite H;
  destruct (nodes _ !! error _) as [?|] eqn:?; [|done]; cbn zeta;
  destruct (nodes (setNode _ _ _) !! element _) as [?|] eqn:?;
  cbn [nodes setNode]; by rewrite ?lookup_insert_ne by done.

Local Ltac display_value id :=
  unfold showError, clearError;
  destruct (get formFields _) as [field|]; [|done];
  destruct (nodes _ !! error field) as [err|] eqn:Herr; [|done]; cbn zeta;
  match goal with
  | |- context [nodes (setNode ?i ?e ?p) !! element field] =>
      assert (value <$> nodes (setNode i e p) !! id = value <$> nodes p !! id) as <-
        by (cbn [nodes setNode]; rewrite lookup_insert; case_decide;
            [subst; by rewrite Herr | done]);
      destruct (nodes (setNode i e p) !! element field) as [el|] eqn:Hel; [|done];
      cbn [nodes setNode] in *; rewrite (lookup_insert _ (element field));
      case_decide; [subst; by rewrite Hel | done]
  end.

Local Ltac display_own H p field :=
  pose proof (formFields_own_ids _ _ H);
  unfold showError, clearError; rewrite H; cbn zeta;
  destruct (nodes p !! error field) as [err|] eqn:Herr; [| by rewrite ?Herr];
  cbn [nodes setNode]; rewrite lookup_insert_ne by done;
  destruct (nodes p !! element field) as [el|] eqn:Hel; cbn [nodes setNode];
  [ by rewrite lookup_insert_eq, lookup_insert_ne, lookup_insert_eq by done
  | by rewrite lookup_insert_eq, lookup_insert_ne, Hel by done ].

Lemma showError_unknown fieldName message p :
  get formFields fieldName = None → showError fieldName message p = p.
Proof. intros H. unfold showError. by rewrite H. Qed.

Lemma clearError_unknown fieldName p :
  get formFields fieldName = None → clearError fieldName p = p.
Proof. intros H. unfold clearError. by rewrite H. Qed.

Lemma showError_other fieldName message p field id :
  get formFields fieldName = Some field →
  id ≠ element field → id ≠ error field →
  nodes (showError fieldName message p) !! id = nodes p !! id.
Proof. intros H ??. display_other H. Qed.

Lemma clearError_other fieldName p field id :
  get formFields fieldName = Some field →
  id ≠ element field → id ≠ error field →
  nodes (clearError fieldName p) !! id = nodes p !! id.
Proof. intros H ??. display_other H. Qed.

(** Neither touches anything but [nodes]. *)
Lemma showError_rest fieldName message p :
  let p' := showError fieldName message p in
  submitButton p' = submitButton p ∧ activeElement p' = activeElement p ∧
  timers p' = timers p ∧ sent p' = sent p.
Proof. unfold showError. by repeat case_match. Qed.

Lemma clearError_rest fieldName p :
  let p' := clearError fieldName p in
  submitButton p' = submitButton p ∧ activeElement p' = activeElement p ∧
  timers p' = timers p ∧ sent p' = sent p.
Proof. unfold clearError. by repeat case_match. Qed.

(** Neither creates an element, removes one or changes a value. *)
Lemma showError_value fieldName message p id :
  value <$> nodes (showError fieldName message p) !! id = value <$> nodes p !! id.
Proof. display_value id. Qed.

Lemma clearError_value fieldName p id :
  value <$> nodes (clearError fieldName p) !! id = value <$> nodes p !! id.
Proof. display_value id. Qed.

(** The error slot and the control of the field after [showError]. *)
Lemma showError_own fieldName message p field :
  get formFields fieldName = Some field →
  let p' := showError fieldName message p in
  nodes p' !! error field =
    setDisplay (lit "block") ∘ setTextContent message <$> nodes p !! error field ∧
  nodes p' !! element field =
    match nodes p !! error field with
    | Some _ => setClassError true ∘ setAriaInvalid (lit "true") <$> nodes p !! element field
    | None => nodes p !! element field
    end.
Proof. intros H. display_own H p field. Qed.

Lemma clearError_own fieldName p field :
  get formFields fieldName = Some field →
  let p' := clearError fieldName p in
  nodes p' !! error field =
    setDisplay (lit "none") ∘ setTextContent [] <$> nodes p !! error field ∧
  nodes p' !! element field =
    match nodes p !! error field with
    | Some _ => setClassError false ∘ setAriaInvalid (lit "false") <$> nodes p !! element field
    | None => nodes p !! element field
    end.
Proof. intros H. display_own H p field. Qed.

End ErrorDisplay.

(** ** One field *)

Section ValidateField.

Implicit Types (p q : Page) (fieldName id : string) (field : Field).

Lemma validateField_unknown fieldName p :
  get formFields fieldName = None → validateField fieldName p = (true, p).
Proof. intros H. unfold validateField. by rewrite H. Qed.

Lemma validateField_no_element fieldName field p :
  get formFields fieldName = Some field → nodes p !! element field = None →
  validateField fieldName p = (true, p).
Proof. intros H1 H2. unfold validateField. by rewrite H1, H2. Qed.

(** With its control in the page, the field gets the error text of its
    value, or is cleared when there is none. *)
Lemma validateField_known fieldName field p el :
  get formFields fieldName = Some field → nodes p !! element field = Some el →
  validateField fieldName p =
    if truthy (fieldError field (value el))
    then (false, showError fieldName (fieldError field (value el)) p)
    else (true, clearError fieldName p).
Proof.
  intros H1 H2. unfold validateField, fieldError. rewrite H1, H2. cbn zeta.
  by destruct (negb (negb _) && blank _).
Qed.

Lemma validateField_other fieldName field p id :
  get formFields fieldName = Some field →
  id ≠ element field → id ≠ error field →
  nodes (validateField fieldName p).2 !! id = nodes p !! id.
Proof.
  intros H ??. destruct (nodes p !! element field) as [el|] eqn:Hel.
  - rewrite (validateField_known _ _ _ _ H Hel). case_match; simpl.
    + by eapply showError_other.
    + by eapply clearError_other.
  - by rewrite (validateField_no_element _ _ _ H Hel).
Qed.

Lemma validateField_rest fieldName p :
  let p' := (validateField fieldName p).2 in
  submitButton p' = submitButton p ∧ activeElement p' = activeElement p ∧
  timers p' = timers p ∧ sent p' = sent p.
Proof.
  unfold validateField.
  repeat case_match; cbn [snd]; done || apply showError_rest || apply clearError_rest.
Qed.

Lemma validateField_value fieldName p id :
  value <$> nodes (validateField fieldName p).2 !! id = value <$> nodes p !! id.
Proof.
  unfold validateField.
  repeat case_match; cbn [snd]; done || apply showError_value || apply clearError_value.
Qed.

(** The result and the writes of [validateField] depend on the two
    elements of the field only. *)
Lemma validateField_local fieldName field p q :
  get formFields fieldName = Some field →
  nodes p !! element field = nodes q !! element field →
  nodes p !! error field = nodes q !! error field →
  (validateField fieldName p).1 = (validateField fieldName q).1 ∧
  nodes (validateField fieldName p).2 !! element field
    = nodes (validateField fieldName q).2 !! element field ∧
  nodes (validateField fieldName p).2 !! error field
    = nodes (validateField fieldName q).2 !! error field.
Proof.
  intros H Hel Herr. destruct (nodes q !! element field) as [el|] eqn:Hq.
  - rewrite (validateField_known _ _ p el H Hel), (validateField_known _ _ q el H Hq).
    case_match; cbn [fst snd].
    + destruct (showError_own fieldName (fieldError field (value el)) p field H) as [-> ->].
      destruct (showError_own fieldName (fieldError field (value el)) q field H) as [-> ->].
      by rewrite Hel, Herr, Hq.
    + destruct (clearError_own fieldName p field H) as [-> ->].
      destruct (clearError_own fieldName q field H) as [-> ->].
      by rewrite Hel, Herr, Hq.
  - rewrite (validateField_no_element _ _ p H Hel), (validateField_no_element _ _ q H Hq).
    cbn [fst snd]. by rewrite Hel, Herr, Hq.
Qed.

(** The elements of a field are out of reach of the validation of
    another name. *)
Lemma validateField_other_field fieldName p other field :
  get formFields other = Some field → other ≠ fieldName →
  nodes (validateField fieldName p).2 !! element field = nodes p !! element field ∧
  nodes (validateField fieldName p).2 !! error field = nodes p !! error field.
Proof.
  intros HG Hne. destruct (get formFields fieldName) as [F|] eqn:HF.
  - destruct (formFields_disjoint _ _ _ _ HF HG) as (? & ? & ? & ?); [done |].
    split; by apply (validateField_other _ F).
  - by rewrite (validateField_unknown _ _ HF).
Qed.

End ValidateField.

(** ** Trimming keeps what is not white space *)

Section Trim.

Lemma trimStart_elem_of c s :
  c ∈ s → isWhiteSpace c = false → c ∈ trimStart s.
Proof.
  intros Hin Hc. induction s as [|c' s IH]; simpl; [done |].
  destruct (isWhiteSpace c') eqn:Hc'; [| done].
  apply elem_of_cons in Hin as [->|Hin]; [congruence | by apply IH].
Qed.

Lemma elem_of_rev (c : N) s : c ∈ rev s ↔ c ∈ s.
Proof. rewrite !list_elem_of_In. symmetry. apply in_rev. Qed.

Lemma trim_elem_of c s : c ∈ s → isWhiteSpace c = false → c ∈ trim s.
Proof.
  intros Hin Hc. unfold trim, trimEnd.
  apply elem_of_rev, trimStart_elem_of; [| done].
  by apply elem_of_rev, trimStart_elem_of.
Qed.

(** A value with a character that is not white space is not blank. *)
Lemma not_blank c s : c ∈ s → isWhiteSpace c = false → blank s = false.
Proof.
  intros Hin Hc. rewrite blank_length. apply Nat.eqb_neq.
  pose proof (trim_elem_of _ _ Hin Hc) as Ht.
  destruct (trim s); [by apply elem_of_nil in Ht | done].
Qed.

Lemma trimStart_whitespace s : forallb isWhiteSpace s = true → trimStart s = [].
Proof.
  induction s as [|c s IH]; simpl; [done |].
  intros [-> Hs]%andb_true_iff. by apply IH.
Qed.

Lemma forallb_false_witness (f : N → bool) (s : jsstring) :
  forallb f s = false → ∃ c, c ∈ s ∧ f c = false.
Proof.
  induction s as [|c s IH]; simpl; [done |].
  destruct (f c) eqn:Hc; simpl.
  - intros (c' & Hin & Hc')%IH. exists c'. split; [by right | done].
  - intros _. exists c. split; [left | done].
Qed.

(** A value is blank exactly when it is empty or white space only. *)
Lemma blank_whitespace s : blank s = forallb isWhiteSpace s.
Proof.
  destruct (forallb isWhiteSpace s) eqn:Hall.
  - rewrite blank_length. unfold trim, trimEnd.
    by rewrite (trimStart_whitespace _ Hall).
  - apply forallb_false_witness in Hall as (c & Hin & Hc). by apply (not_blank c).
Qed.

End Trim.

(** ** Single fields *)

Section FieldProperties.

Implicit Types (p : Page) (fieldName id : string) (value : jsstring).

(** C7. The name, by the length of its trimmed value: no character gives
    the "required" message, one character the "at least 2" message, two
    characters and a hundred characters are valid, a hundred and one give
    the "less than 100" message. *)
Theorem validateName_bounds value :
  (length (trim value) = 0 → validateName value = lit "Name is required") ∧
  (length (trim value) = 1 →
     validateName value = lit "Name must be at least 2 characters") ∧
  (length (trim value) = 2 → validateName value = []) ∧
  (length (trim value) = 100 → validateName value = []) ∧
  (length (trim value) = 101 →
     validateName value = lit "Name must be less than 100 characters").
Proof.
  unfold validateName. rewrite blank_length.
  repeat split; intros ->; reflexivity.
Qed.

Lemma validateName_bounds_witness :
  validateName [] = lit "Name is required" ∧
  validateName (lit " J ") = lit "Name must be at least 2 characters" ∧
  validateName (lit "Jo") = [] ∧
  validateName (repeat 97%N 100) = [] ∧
  validateName (repeat 97%N 101) = lit "Name must be less than 100 characters".
Proof.
  split; [| split; [| split; [| split]]].
  - apply (proj1 (validateName_bounds [])). reflexivity.
  - apply (proj1 (proj2 (validateName_bounds (lit " J ")))). reflexivity.
  - apply (proj1 (proj2 (proj2 (validateName_bounds (lit "Jo"))))). reflexivity.
  - apply (proj1 (proj2 (proj2 (proj2 (validateName_bounds (repeat 97%N 100)))))).
    vm_compute. reflexivity.
  - apply (proj2 (proj2 (proj2 (proj2 (validateName_bounds (repeat 97%N 101)))))).
    vm_compute. reflexivity.
Defined.

(** C8. The message, by the length of its trimmed value: no character
    gives the "required" message, nine characters the "at least 10"
    message, ten characters are valid, two thousand and one give the
    "less than 2000" message. *)
Theorem validateMessage_bounds value :
  (length (trim value) = 0 → validateMessage value = lit "Message is required") ∧
  (length (trim value) = 9 →
     validateMessage value = lit "Message must be at least 10 characters") ∧
  (length (trim value) = 10 → validateMessage value = []) ∧
  (length (trim value) = 2001 →
     validateMessage value = lit "Message must be less than 2000 characters").
Proof.
  unfold validateMessage. rewrite blank_length.
  repeat split; intros ->; reflexivity.
Qed.

Lemma validateMessage_bounds_witness :
  validateMessage (lit "   ") = lit "Message is required" ∧
  validateMessage (lit "Hi there.") = lit "Message must be at least 10 characters" ∧
  validateMessage (lit "Hi there!!") = [] ∧
  validateMessage (repeat 97%N 2001) = lit "Message must be less than 2000 characters".
Proof.
  split; [| split; [| split]].
  - apply (proj1 (validateMessage_bounds (lit "   "))). reflexivity.
  - apply (proj1 (proj2 (validateMessage_bounds (lit "Hi there.")))). reflexivity.
  - apply (proj1 (proj2 (proj2 (validateMessage_bounds (lit "Hi there!!"))))). reflexivity.
  - apply (proj2 (proj2 (proj2 (validateMessage_bounds (repeat 97%N 2001))))).
    vm_compute. reflexivity.
Defined.

(** C6, as amended.  A phone value that is empty or white space only is
    cleared of any error and valid; a value with a character outside the digits, the white
    space of [\s], [+], [-] and the parentheses gets the "valid phone
    number" message; ["+1 (555) 123-4567"] is valid and ["call-me"] is
    not. *)
Theorem validateField_phone p el :
  nodes p !! "phone" = Some el →
  (forallb isWhiteSpace (value el) = true →
     validateField "phone" p = (true, clearError "phone" p) ∧
     nodes (clearError "phone" p) !! "phone-error" =
       setDisplay (lit "none") ∘ setTextContent [] <$> nodes p !! "phone-error") ∧
  (∀ c, c ∈ value el → phoneClass c = false →
     validatePhone (value el) = lit "Please enter a valid phone number" ∧
     validateField "phone" p =
       (false, showError "phone" (lit "Please enter a valid phone number") p)) ∧
  validatePhone (lit "+1 (555) 123-4567") = [] ∧
  validatePhone (lit "call-me") = lit "Please enter a valid phone number".
Proof.
  intros Hel. split; [| split; [| done]].
  - rewrite <- blank_whitespace. intros Hb. split.
    + unfold validateField. cbn [get formFields String.eqb Ascii.eqb Bool.eqb element].
      rewrite Hel. cbn zeta. by rewrite Hb.
    + by apply (clearError_own "phone" p (mkField "phone" "phone-error" validatePhone (Some false))).
  - intros c Hin Hc.
    assert (Hws : isWhiteSpace c = false).
    { unfold phoneClass in Hc. by destruct (isDigit c), (isWhiteSpace c). }
    pose proof (not_blank _ _ Hin Hws) as Hb.
    assert (Hv : validatePhone (value el) = lit "Please enter a valid phone number").
    { rewrite validatePhone_cases, Hb. by rewrite (forallb_false_elem _ _ _ Hin Hc). }
    split; [done |].
    rewrite (validateField_known "phone" _ p el eq_refl Hel).
    unfold fieldError. cbn [required validator]. rewrite Hb, andb_false_r.
    by rewrite Hv.
Qed.

Lemma validateField_phone_witness :
  (validateField "phone" Sample.valid).1 = true ∧
  (validateField "phone"
     (Sample.page (lit "Jo") (lit "jo@x.com") (lit "call-me") (lit "General")
        (lit "Hello there!"))).1 = false.
Proof.
  split.
  - rewrite (proj1 (proj1 (validateField_phone Sample.valid (Sample.input []) eq_refl)
               eq_refl)).
    reflexivity.
  - pose proof (validateField_phone
        (Sample.page (lit "Jo") (lit "jo@x.com") (lit "call-me") (lit "General")
           (lit "Hello there!"))
        (Sample.input (lit "call-me")) eq_refl) as (_ & H & _).
    destruct (H 99%N) as [_ ->]; [| reflexivity | reflexivity].
    vm_compute. constructor.
Defined.

(** C6, as the specification words it, fails: ["1<TAB>2"] holds a
    character that is none of the digits, the space, [+], [-] and the
    parentheses, and the phone field accepts it. *)
Lemma validatePhone_accepts_tab :
  9%N ∈ Sample.tabbed ∧ specPhoneClass 9 = false ∧
  blank Sample.tabbed = false ∧
  validatePhone Sample.tabbed = [] ∧
  (validateField "phone"
     (Sample.page (lit "Jo") (lit "jo@x.com") Sample.tabbed (lit "General")
        (lit "Hello there!"))).1 = true.
Proof. split; [set_solver | by vm_compute]. Qed.


(** C9. [validateField] writes to the two elements of its own field only:
    the control and the error slot of every other field stay as they
    were, no value changes anywhere, and the rest of the page is left
    alone. *)
Theorem validateField_frame fieldName p :
  let p' := (validateField fieldName p).2 in
  (∀ other field, get formFields other = Some field → other ≠ fieldName →
     nodes p' !! element field = nodes p !! element field ∧
     nodes p' !! error field = nodes p !! error field) ∧
  (∀ id, value <$> nodes p' !! id = value <$> nodes p !! id) ∧
  submitButton p' = submitButton p ∧ activeElement p' = activeElement p ∧
  timers p' = timers p ∧ sent p' = sent p.
Proof.
  intros p'. split; [| split; [apply validateField_value | apply validateField_rest]].
  intros other field Hget Hne. by apply (validateField_other_field fieldName p other field).
Qed.

Lemma validateField_frame_witness :
  let p' := (validateField "email" Sample.invalid).2 in
  textContent <$> nodes p' !! "email-error" =
    Some (lit "Please enter a valid email address") ∧
  nodes p' !! "message" = nodes Sample.invalid !! "message" ∧
  nodes p' !! "message-error" = nodes Sample.invalid !! "message-error".
Proof.
  split; [reflexivity |].
  exact (proj1 (validateField_frame "email" Sample.invalid) "message"
           (mkField "message" "message-error" validateMessage None) eq_refl
           ltac:(discriminate)).
Defined.

(** C10. For a name that is none of the five fields, and for a field
    whose control is not in the page, [validateField] returns true and
    leaves the page as it is. *)
Theorem validateField_absent fieldName p :
  fieldName ∉ ["name"; "email"; "phone"; "subject"; "message"] ∨
  (∃ field, get formFields fieldName = Some field ∧ nodes p !! element field = None) →
  validateField fieldName p = (true, p).
Proof.
  intros [Hnot|(field & Hget & Hel)].
  - apply validateField_unknown, get_not_key. by rewrite keys_formFields.
  - by apply (validateField_no_element _ field).
Qed.

Lemma validateField_absent_witness :
  validateField "fax" Sample.invalid = (true, Sample.invalid) ∧
  validateField "name" Sample.bare = (true, Sample.bare).
Proof.
  split.
  - apply validateField_absent. left.
    repeat (apply not_elem_of_cons; split; [done |]). apply not_elem_of_nil.
  - apply validateField_absent. right.
    exists (mkField "name" "name-error" validateName None). split; reflexivity.
Defined.

End FieldProperties.

(** ** The whole form *)

Section ValidateForm.

Implicit Types (p q : Page) (fieldName : string) (field : Field) (l : list string).

Lemma validateForm_each_eq b p fieldName :
  validateForm_each (b, p) fieldName =
    ((validateField fieldName p).1 && b, (validateField fieldName p).2).
Proof.
  unfold validateForm_each. cbn [fst snd].
  by destruct (validateField fieldName p) as [[] ?].
Qed.

(** A loop over names that leave out a field leaves its elements alone. *)
Lemma validate_loop_other l : ∀ b p fieldName field,
  get formFields fieldName = Some field → fieldName ∉ l →
  nodes (foldl validateForm_each (b, p) l).2 !! element field = nodes p !! element field ∧
  nodes (foldl validateForm_each (b, p) l).2 !! error field = nodes p !! error field.
Proof.
  induction l as [|g l IH]; intros b p f F HF Hnot; [done |].
  apply not_elem_of_cons in Hnot as [Hne Hnot].
  cbn [foldl]. rewrite validateForm_each_eq.
  destruct (IH ((validateField g p).1 && b) (validateField g p).2 f F HF Hnot) as [-> ->].
  by apply (validateField_other_field g p f F).
Qed.

(** The result of [validateField] for a name does not change when another
    name has been validated before. *)
Lemma validateField_after fieldName other p :
  other ≠ fieldName →
  (validateField fieldName (validateField other p).2).1 = (validateField fieldName p).1.
Proof.
  intros Hne. destruct (get formFields fieldName) as [F|] eqn:HF.
  - destruct (validateField_other_field other p fieldName F HF) as [He Hr]; [done |].
    by destruct (validateField_local fieldName F _ p HF He Hr) as [-> _].
  - by rewrite !(validateField_unknown fieldName) by done.
Qed.

Lemma forallb_ext_elem {A} (f g : A → bool) (xs : list A) :
  (∀ x, x ∈ xs → f x = g x) → forallb f xs = forallb g xs.
Proof.
  induction xs as [|x xs IH]; intros H; [done |]. simpl.
  rewrite (H x) by left. f_equal. apply IH. intros y Hy. apply H. by right.
Qed.

(** The loop returns the conjunction of what [validateField] returns for
    each name on the page the loop starts from. *)
Lemma validate_loop_result l : ∀ b p,
  NoDup l →
  (foldl validateForm_each (b, p) l).1 =
    forallb (λ fieldName, (validateField fieldName p).1) l && b.
Proof.
  induction l as [|g l IH]; intros b p Hnd; [done |].
  apply NoDup_cons in Hnd as [Hnot Hnd].
  cbn [foldl forallb]. rewrite validateForm_each_eq, IH by done.
  rewrite andb_assoc, (andb_comm (forallb _ _)). f_equal. f_equal.
  apply forallb_ext_elem. intros f Hin.
  apply validateField_after. by intros ->.
Qed.

(** After the loop a field is as [validateField] alone leaves it. *)
Lemma validate_loop_own l : ∀ b p fieldName field,
  NoDup l → fieldName ∈ l → get formFields fieldName = Some field →
  nodes (foldl validateForm_each (b, p) l).2 !! element field
    = nodes (validateField fieldName p).2 !! element field ∧
  nodes (foldl validateForm_each (b, p) l).2 !! error field
    = nodes (validateField fieldName p).2 !! error field.
Proof.
  induction l as [|g l IH]; intros b p f F Hnd Hin HF; [by apply elem_of_nil in Hin |].
  apply NoDup_cons in Hnd as [Hnot Hnd].
  cbn [foldl]. rewrite validateForm_each_eq.
  destruct (decide (f = g)) as [->|Hne].
  - by apply (validate_loop_other l _ _ g F).
  - apply elem_of_cons in Hin as [?|Hin]; [done |].
    destruct (IH ((validateField g p).1 && b) (validateField g p).2 f F Hnd Hin HF)
      as [-> ->].
    destruct (validateField_other_field g p f F HF) as [He Hr]; [done |].
    by destruct (validateField_local f F _ p HF He Hr) as (_ & -> & ->).
Qed.

(** C1. [validateForm] calls [validateField] for name, email, phone,
    subject and message, in this order and all five whatever the
    results, each call on the page that the call before has left; it
    returns the conjunction of the five results.  After it, every field
    is as [validateField] leaves it, and the result is true exactly when
    [validateField] holds of every field. *)
Theorem validateForm_all_fields p :
  (∃ r1 p1 r2 p2 r3 p3 r4 p4 r5 p5,
     validateField "name" p = (r1, p1) ∧
     validateField "email" p1 = (r2, p2) ∧
     validateField "phone" p2 = (r3, p3) ∧
     validateField "subject" p3 = (r4, p4) ∧
     validateField "message" p4 = (r5, p5) ∧
     validateForm p = (r1 && r2 && r3 && r4 && r5, p5)) ∧
  (∀ fieldName field, get formFields fieldName = Some field →
     nodes (validateForm p).2 !! element field
       = nodes (validateField fieldName p).2 !! element field ∧
     nodes (validateForm p).2 !! error field
       = nodes (validateField fieldName p).2 !! error field) ∧
  ((validateForm p).1 = true ↔
     ∀ fieldName, fieldName ∈ keys formFields → (validateField fieldName p).1 = true).
Proof.
  split; [| split].
  - unfold validateForm. rewrite keys_formFields. cbn [foldl].
    rewrite !validateForm_each_eq.
    destruct (validateField "name" p) as [r1 p1] eqn:H1. cbn [fst snd].
    destruct (validateField "email" p1) as [r2 p2] eqn:H2. cbn [fst snd].
    destruct (validateField "phone" p2) as [r3 p3] eqn:H3. cbn [fst snd].
    destruct (validateField "subject" p3) as [r4 p4] eqn:H4. cbn [fst snd].
    destruct (validateField "message" p4) as [r5 p5] eqn:H5. cbn [fst snd].
    exists r1, p1, r2, p2, r3, p3, r4, p4, r5, p5. repeat split; try done.
    by destruct r1, r2, r3, r4, r5.
  - intros f F HF. apply validate_loop_own; [apply keys_formFields_NoDup | | done].
    by apply (get_formFields_key _ F).
  - unfold validateForm. rewrite validate_loop_result by apply keys_formFields_NoDup.
    rewrite andb_true_r, forallb_forall. split.
    + intros H f Hin. by apply H, list_elem_of_In.
    + intros H f Hin. by apply H, list_elem_of_In.
Qed.

Lemma validateForm_all_fields_witness :
  (validateForm Sample.invalid).1 = false ∧
  textContent <$> nodes (validateForm Sample.invalid).2 !! "email-error" =
    Some (lit "Please enter a valid email address") ∧
  nodes (validateForm Sample.invalid).2 !! "message-error" =
    nodes (validateField "message" Sample.invalid).2 !! "message-error".
Proof.
  split; [reflexivity | split; [reflexivity |]].
  exact (proj2 (proj1 (proj2 (validateForm_all_fields Sample.invalid)) "message"
                  (mkField "message" "message-error" validateMessage None) eq_refl)).
Defined.

End ValidateForm.

(** ** Validation twice, and the move of the focus *)

Section Settled.

Implicit Types (p q : Page) (fieldName id : string) (field : Field) (message : jsstring).

(** [showError] and [clearError] when the field has its two elements. *)
Lemma showError_both fieldName field message p err el :
  get formFields fieldName = Some field →
  nodes p !! error field = Some err → nodes p !! element field = Some el →
  showError fieldName message p =
    setNode (element field) (setClassError true (setAriaInvalid (lit "true") el))
      (setNode (error field) (setDisplay (lit "block") (setTextContent message err)) p).
Proof.
  intros Hget Herr Hel. pose proof (formFields_own_ids _ _ Hget).
  unfold showError. rewrite Hget, Herr. cbn zeta. cbn [nodes setNode].
  by rewrite lookup_insert_ne, Hel.
Qed.

Lemma clearError_both fieldName field p err el :
  get formFields fieldName = Some field →
  nodes p !! error field = Some err → nodes p !! element field = Some el →
  clearError fieldName p =
    setNode (element field) (setClassError false (setAriaInvalid (lit "false") el))
      (setNode (error field) (setDisplay (lit "none") (setTextContent [] err)) p).
Proof.
  intros Hget Herr Hel. pose proof (formFields_own_ids _ _ Hget).
  unfold clearError. rewrite Hget, Herr. cbn zeta. cbn [nodes setNode].
  by rewrite lookup_insert_ne, Hel.
Qed.

(** [showError] and [clearError] when the control of the field is not in
    the page. *)
Lemma showError_slot fieldName field message p err :
  get formFields fieldName = Some field →
  nodes p !! error field = Some err → nodes p !! element field = None →
  showError fieldName message p =
    setNode (error field) (setDisplay (lit "block") (setTextContent message err)) p.
Proof.
  intros Hget Herr Hel. pose proof (formFields_own_ids _ _ Hget).
  unfold showError. rewrite Hget, Herr. cbn zeta. cbn [nodes setNode].
  by rewrite lookup_insert_ne, Hel.
Qed.

Lemma clearError_slot fieldName field p err :
  get formFields fieldName = Some field →
  nodes p !! error field = Some err → nodes p !! element field = None →
  clearError fieldName p =
    setNode (error field) (setDisplay (lit "none") (setTextContent [] err)) p.
Proof.
  intros Hget Herr Hel. pose proof (formFields_own_ids _ _ Hget).
  unfold clearError. rewrite Hget, Herr. cbn zeta. cbn [nodes setNode].
  by rewrite lookup_insert_ne, Hel.
Qed.

(** Without the error slot neither function does anything. *)
Lemma showError_no_slot fieldName field message p :
  get formFields fieldName = Some field → nodes p !! error field = None →
  showError fieldName message p = p.
Proof. intros Hget Herr. unfold showError. by rewrite Hget, Herr. Qed.

Lemma clearError_no_slot fieldName field p :
  get formFields fieldName = Some field → nodes p !! error field = None →
  clearError fieldName p = p.
Proof. intros Hget Herr. unfold clearError. by rewrite Hget, Herr. Qed.

Lemma setNode_again a b ea eb p :
  a ≠ b →
  setNode a ea (setNode b eb (setNode a ea (setNode b eb p))) =
    setNode a ea (setNode b eb p).
Proof.
  intros Hne. unfold setNode. cbn [nodes submitButton activeElement timers sent].
  f_equal. apply map_eq. intros i. rewrite !lookup_insert.
  by repeat case_decide.
Qed.

Lemma setNode_same a ea p : setNode a ea (setNode a ea p) = setNode a ea p.
Proof.
  unfold setNode. cbn [nodes submitButton activeElement timers sent].
  f_equal. apply insert_insert_eq.
Qed.

Lemma showError_idempotent fieldName message p :
  showError fieldName message (showError fieldName message p) =
    showError fieldName message p.
Proof.
  destruct (get formFields fieldName) as [field|] eqn:Hget;
    [| by rewrite !showError_unknown].
  pose proof (formFields_own_ids _ _ Hget) as Hne.
  destruct (showError_own fieldName message p field Hget) as [Hs He].
  destruct (nodes p !! error field) as [err|] eqn:Herr;
    [| by rewrite !(showError_no_slot _ field)].
  destruct (nodes p !! element field) as [el|] eqn:Hel.
  - rewrite (showError_both _ _ _ _ _ _ Hget Hs He).
    rewrite (showError_both _ _ _ _ _ _ Hget Herr Hel).
    by apply setNode_again.
  - rewrite (showError_slot _ _ _ _ _ Hget Hs He).
    rewrite (showError_slot _ _ _ _ _ Hget Herr Hel). apply setNode_same.
Qed.

Lemma clearError_idempotent fieldName p :
  clearError fieldName (clearError fieldName p) = clearError fieldName p.
Proof.
  destruct (get formFields fieldName) as [field|] eqn:Hget;
    [| by rewrite !clearError_unknown].
  pose proof (formFields_own_ids _ _ Hget) as Hne.
  destruct (clearError_own fieldName p field Hget) as [Hs He].
  destruct (nodes p !! error field) as [err|] eqn:Herr;
    [| by rewrite !(clearError_no_slot _ field)].
  destruct (nodes p !! element field) as [el|] eqn:Hel.
  - rewrite (clearError_both _ _ _ _ _ Hget Hs He).
    rewrite (clearError_both _ _ _ _ _ Hget Herr Hel).
    by apply setNode_again.
  - rewrite (clearError_slot _ _ _ _ Hget Hs He).
    rewrite (clearError_slot _ _ _ _ Hget Herr Hel). apply setNode_same.
Qed.

Lemma validateField_again fieldName p :
  validateField fieldName (validateField fieldName p).2 = validateField fieldName p.
Proof.
  destruct (get formFields fieldName) as [field|] eqn:Hget;
    [| rewrite (validateField_unknown _ p Hget); by apply validateField_unknown].
  destruct (nodes p !! element field) as [el|] eqn:Hel;
    [| rewrite (validateField_no_element _ _ p Hget Hel);
       by apply (validateField_no_element _ field)].
  pose proof (validateField_value fieldName p (element field)) as Hv.
  rewrite Hel in Hv.
  destruct (nodes (validateField fieldName p).2 !! element field) as [el'|] eqn:Hel';
    [| done].
  injection Hv as Hv.
  rewrite (validateField_known _ _ _ _ Hget Hel'), Hv.
  rewrite (validateField_known _ _ _ _ Hget Hel).
  destruct (truthy _); cbn [snd].
  - by rewrite showError_idempotent.
  - by rewrite clearError_idempotent.
Qed.

Lemma page_eq p q :
  nodes p = nodes q → submitButton p = submitButton q →
  activeElement p = activeElement q → timers p = timers q → sent p = sent q →
  p = q.
Proof. destruct p, q. cbn. by intros -> -> -> -> ->. Qed.

(** Once the form is validated, the validation of a field changes
    nothing. *)
Lemma validateForm_settled p fieldName :
  (validateField fieldName (validateForm p).2).2 = (validateForm p).2.
Proof.
  destruct (validateField_rest fieldName (validateForm p).2) as (Hb & Ha & Ht & Hs).
  apply page_eq; [| done ..].
  destruct (get formFields fieldName) as [field|] eqn:Hget;
    [| by rewrite validateField_unknown].
  assert (Hown :
    nodes (validateForm p).2 !! element field =
      nodes (validateField fieldName p).2 !! element field ∧
    nodes (validateForm p).2 !! error field =
      nodes (validateField fieldName p).2 !! error field).
  { apply (validate_loop_own (keys formFields) true p fieldName field);
      [apply keys_formFields_NoDup | by apply (get_formFields_key _ field) | done]. }
  destruct Hown as [Hel Herr].
  destruct (validateField_local fieldName field (validateForm p).2
              (validateField fieldName p).2 Hget Hel Herr) as (_ & Hel' & Herr').
  rewrite validateField_again in Hel', Herr'.
  apply map_eq. intros i.
  destruct (decide (i = element field)) as [->|]; [by rewrite Hel', Hel |].
  destruct (decide (i = error field)) as [->|]; [by rewrite Herr', Herr |].
  by apply (validateField_other fieldName field).
Qed.

(** The field of a control. *)
Lemma fieldOf_Some id fieldName :
  fieldOf id = Some fieldName →
  ∃ field, get formFields fieldName = Some field ∧ element field = id.
Proof.
  unfold fieldOf. destruct (List.find _ formFields) as [[f F]|] eqn:Hfind; [| done].
  intros [= <-]. exists F. apply find_some in Hfind as [Hin Heq].
  apply String.eqb_eq in Heq. split; [| done].
  apply list_elem_of_In in Hin. unfold formFields in Hin.
  repeat (apply elem_of_cons in Hin as [[= -> ->]|Hin]; [reflexivity |]).
  by apply elem_of_nil in Hin.
Qed.

(** With no control in the page [validateField] returns at once, so the
    blur listener is [validateField] in every case. *)
Lemma onBlur_eq fieldName p : onBlur fieldName p = (validateField fieldName p).2.
Proof.
  unfold onBlur. destruct (get formFields fieldName) as [field|] eqn:Hget;
    [| by rewrite validateField_unknown].
  destruct (nodes p !! element field) eqn:Hel; [done |].
  by rewrite (validateField_no_element _ field).
Qed.

Lemma blur_rest id p :
  submitButton (blur id p) = submitButton p ∧
  activeElement (blur id p) = activeElement p ∧
  timers (blur id p) = timers p ∧ sent (blur id p) = sent p.
Proof.
  unfold blur. destruct (fieldOf id); [rewrite onBlur_eq; apply validateField_rest | done].
Qed.

Lemma blur_value id p i :
  value <$> nodes (blur id p) !! i = value <$> nodes p !! i.
Proof.
  unfold blur. destruct (fieldOf id); [rewrite onBlur_eq; apply validateField_value | done].
Qed.

(** The blur of an element touches the two elements of its field and no
    other. *)
Lemma blur_other id p i :
  (∀ fieldName field, get formFields fieldName = Some field →
     i ≠ element field ∧ i ≠ error field) →
  nodes (blur id p) !! i = nodes p !! i.
Proof.
  intros Hout. unfold blur.
  destruct (fieldOf id) as [f|] eqn:Hf; [| done]. rewrite onBlur_eq.
  destruct (fieldOf_Some _ _ Hf) as (F & HF & _).
  destruct (Hout f F HF). by apply (validateField_other f F).
Qed.

Lemma blur_success id p :
  nodes (blur id p) !! successMessage = nodes p !! successMessage.
Proof.
  apply blur_other. intros f F [? ?]%formFields_not_success. by split.
Qed.

Lemma blur_settled id p :
  (∀ fieldName, (validateField fieldName p).2 = p) → blur id p = p.
Proof.
  intros Hs. unfold blur. destruct (fieldOf id); [rewrite onBlur_eq; apply Hs | done].
Qed.

Lemma focus_active id p : activeElement (focus id p) = Some id.
Proof. done. Qed.

Lemma focus_rest id p :
  submitButton (focus id p) = submitButton p ∧
  timers (focus id p) = timers p ∧ sent (focus id p) = sent p.
Proof.
  unfold focus. destruct (activeElement p) as [old|]; [| done].
  case_bool_decide; [done |].
  destruct (blur_rest old p) as (? & _ & ? & ?). by cbn.
Qed.

Lemma focus_value id p i :
  value <$> nodes (focus id p) !! i = value <$> nodes p !! i.
Proof.
  unfold focus. destruct (activeElement p) as [old|]; [| done].
  case_bool_decide; [done |]. cbn [nodes setActiveElement]. apply blur_value.
Qed.

Lemma focus_success id p :
  nodes (focus id p) !! successMessage = nodes p !! successMessage.
Proof.
  unfold focus. destruct (activeElement p) as [old|]; [| done].
  case_bool_decide; [done |]. cbn [nodes setActiveElement]. apply blur_success.
Qed.

Lemma focus_settled id p :
  (∀ fieldName, (validateField fieldName p).2 = p) →
  nodes (focus id p) = nodes p.
Proof.
  intros Hs. unfold focus. destruct (activeElement p) as [old|]; [| done].
  case_bool_decide; [done |]. by rewrite blur_settled.
Qed.

End Settled.

(** ** The parts of the submit handler *)

Section Handler.

Implicit Types (p q : Page) (fieldName id : string) (field : Field) (l : list string).

Lemma hideSuccess_own p :
  nodes (hideSuccess p) !! successMessage =
    setDisplay (lit "none") <$> nodes p !! successMessage.
Proof.
  unfold hideSuccess. destruct (nodes p !! successMessage) as [el|] eqn:H.
  - cbn [nodes setNode]. by rewrite lookup_insert_eq.
  - by rewrite H.
Qed.

Lemma hideSuccess_other p id :
  id ≠ successMessage → nodes (hideSuccess p) !! id = nodes p !! id.
Proof.
  intros Hne. unfold hideSuccess. destruct (nodes p !! successMessage); [| done].
  cbn [nodes setNode]. by rewrite lookup_insert_ne.
Qed.

Lemma hideSuccess_rest p :
  submitButton (hideSuccess p) = submitButton p ∧
  activeElement (hideSuccess p) = activeElement p ∧
  timers (hideSuccess p) = timers p ∧ sent (hideSuccess p) = sent p.
Proof. unfold hideSuccess. by destruct (nodes p !! successMessage). Qed.

Lemma hideSuccess_value p id :
  value <$> nodes (hideSuccess p) !! id = value <$> nodes p !! id.
Proof.
  destruct (decide (id = successMessage)) as [->|Hne].
  - rewrite hideSuccess_own. by destruct (nodes p !! successMessage).
  - by rewrite hideSuccess_other.
Qed.

Lemma validate_loop_rest l : ∀ b p,
  let p' := (foldl validateForm_each (b, p) l).2 in
  submitButton p' = submitButton p ∧ activeElement p' = activeElement p ∧
  timers p' = timers p ∧ sent p' = sent p.
Proof.
  induction l as [|g l IH]; intros b p; [done |].
  cbn [foldl]. rewrite validateForm_each_eq. cbn zeta.
  destruct (IH ((validateField g p).1 && b) (validateField g p).2) as (-> & -> & -> & ->).
  apply validateField_rest.
Qed.

Lemma validate_loop_value l : ∀ b p id,
  value <$> nodes (foldl validateForm_each (b, p) l).2 !! id = value <$> nodes p !! id.
Proof.
  induction l as [|g l IH]; intros b p id; [done |].
  cbn [foldl]. rewrite validateForm_each_eq, IH. apply validateField_value.
Qed.

(** An element that belongs to no field is out of reach of the loop. *)
Lemma validate_loop_outside l : ∀ b p id,
  (∀ fieldName field, get formFields fieldName = Some field →
     id ≠ element field ∧ id ≠ error field) →
  nodes (foldl validateForm_each (b, p) l).2 !! id = nodes p !! id.
Proof.
  induction l as [|g l IH]; intros b p id Hout; [done |].
  cbn [foldl]. rewrite validateForm_each_eq, IH by done.
  destruct (get formFields g) as [G|] eqn:HG.
  - destruct (Hout g G HG). by apply (validateField_other g G).
  - by rewrite validateField_unknown.
Qed.

Lemma validateForm_rest p :
  let p' := (validateForm p).2 in
  submitButton p' = submitButton p ∧ activeElement p' = activeElement p ∧
  timers p' = timers p ∧ sent p' = sent p.
Proof. apply validate_loop_rest. Qed.

Lemma validateForm_value p id :
  value <$> nodes (validateForm p).2 !! id = value <$> nodes p !! id.
Proof. apply validate_loop_value. Qed.

Lemma validateForm_success p :
  nodes (validateForm p).2 !! successMessage = nodes p !! successMessage.
Proof.
  apply validate_loop_outside. intros f F [? ?]%formFields_not_success. by split.
Qed.

(** [Array.prototype.find] stops at the first element that passes. *)
Lemma find_first {A} (f : A → bool) (before after : list A) x :
  Forall (λ y, f y = false) before → f x = true →
  List.find f (before ++ x :: after) = Some x.
Proof.
  intros Hb Hx. induction Hb as [|y before Hy _ IH]; simpl.
  - by rewrite Hx.
  - by rewrite Hy.
Qed.

Lemma find_none {A} (f : A → bool) (xs : list A) :
  Forall (λ y, f y = false) xs → List.find f xs = None.
Proof. intros H. induction H as [|y ys Hy _ IH]; simpl; [done | by rewrite Hy]. Qed.

(** The focus moves after the validation of the whole form: the blur that
    it causes validates a field once more and changes nothing. *)
Lemma focusFirstError_rest p :
  let q := (validateForm p).2 in
  nodes (focusFirstError q) = nodes q ∧
  submitButton (focusFirstError q) = submitButton q ∧
  timers (focusFirstError q) = timers q ∧ sent (focusFirstError q) = sent q.
Proof.
  cbn zeta. unfold focusFirstError.
  destruct (List.find _ _) as [f|]; [| done].
  destruct (get formFields f) as [F|]; [| done].
  destruct (nodes _ !! element F); [| done].
  destruct (focus_rest (element F) (validateForm p).2) as (? & ? & ?).
  split; [| done]. apply focus_settled. intros g. apply validateForm_settled.
Qed.

(** The field that gets the focus. *)
Lemma focusFirstError_first p before fieldName after field :
  keys formFields = before ++ fieldName :: after →
  Forall (λ g, markedInvalid p g = false) before →
  markedInvalid p fieldName = true →
  get formFields fieldName = Some field →
  activeElement (focusFirstError p) = Some (element field).
Proof.
  intros Hk Hb Hm Hget. unfold focusFirstError.
  rewrite Hk, (find_first _ _ _ _ Hb Hm), Hget.
  unfold markedInvalid in Hm. rewrite Hget in Hm.
  by destruct (nodes p !! element field).
Qed.

Lemma focusFirstError_none p :
  Forall (λ g, markedInvalid p g = false) (keys formFields) →
  focusFirstError p = p.
Proof. intros H. unfold focusFirstError. by rewrite (find_none _ _ H). Qed.

(** The two ways out of the validation. *)
Lemma handleSubmit_validate_false p :
  (validateForm p).1 = false →
  handleSubmit_validate p = (Returned, focusFirstError (validateForm p).2).
Proof.
  intros H. unfold handleSubmit_validate.
  destruct (validateForm p) as [ok q]. cbn [fst snd] in *. by rewrite H.
Qed.

Lemma handleSubmit_validate_true p :
  (validateForm p).1 = true →
  handleSubmit_validate p =
    match submitButton p with
    | None => (Threw, (validateForm p).2)
    | Some button =>
        (Awaiting (textContent button),
         simulateFormSubmission (formData (validateForm p).2)
           (setSubmitButton
              (setTextContent (lit "Sending...") (setDisabled true button))
              (validateForm p).2))
    end.
Proof.
  intros H. unfold handleSubmit_validate.
  pose proof (validateForm_rest p) as (Hb & _). cbn zeta in Hb.
  destruct (validateForm p) as [ok q]. cbn [fst snd] in *. rewrite H. cbn [negb].
  rewrite Hb. by destruct (submitButton p).
Qed.

(** What is known when the handler is suspended at the [await]. *)
Lemma handleSubmit_validate_awaiting p text p1 :
  handleSubmit_validate p = (Awaiting text, p1) →
  (validateForm p).1 = true ∧
  ∃ button, submitButton p = Some button ∧ text = textContent button ∧
    p1 = simulateFormSubmission (formData (validateForm p).2)
           (setSubmitButton
              (setTextContent (lit "Sending...") (setDisabled true button))
              (validateForm p).2).
Proof.
  destruct (validateForm p).1 eqn:Hv.
  - rewrite (handleSubmit_validate_true _ Hv).
    destruct (submitButton p) as [button|]; [| done].
    intros H. pose proof (f_equal fst H) as H1. pose proof (f_equal snd H) as H2.
    cbn [fst snd] in H1, H2. split; [done |]. exists button.
    split; [done |]. split; [congruence | done].
  - by rewrite (handleSubmit_validate_false _ Hv).
Qed.


Lemma markedInvalid_nodes p q fieldName :
  nodes p = nodes q → markedInvalid p fieldName = markedInvalid q fieldName.
Proof. intros H. unfold markedInvalid. by rewrite H. Qed.

(** Hiding the success indicator does not change what the validation
    returns. *)
Lemma validateForm_hideSuccess p :
  (validateForm (hideSuccess p)).1 = (validateForm p).1.
Proof.
  unfold validateForm. rewrite !validate_loop_result by apply keys_formFields_NoDup.
  f_equal. apply forallb_ext_elem. intros f _.
  destruct (get formFields f) as [F|] eqn:HF.
  - destruct (formFields_not_success _ _ HF) as [He Hr].
    by destruct (validateField_local f F (hideSuccess p) p HF) as [-> _];
      [by apply hideSuccess_other.. |].
  - by rewrite !(validateField_unknown f) by done.
Qed.

(** C4. When [validateForm] returns false, the handler returns without a
    call to the submission function, and the focus goes to the first field,
    in the order of the declaration, that is marked invalid at that time. *)
Theorem handleSubmit_invalid p :
  (validateForm p).1 = false →
  let p' := (handleSubmit p).2 in
  (handleSubmit p).1 = Returned ∧
  sent p' = sent p ∧ timers p' = timers p ∧ submitButton p' = submitButton p ∧
  (∀ before fieldName after field,
     keys formFields = before ++ fieldName :: after →
     Forall (λ g, markedInvalid p' g = false) before →
     markedInvalid p' fieldName = true →
     get formFields fieldName = Some field →
     activeElement p' = Some (element field)).
Proof.
  intros Hv. rewrite <- validateForm_hideSuccess in Hv.
  unfold handleSubmit. rewrite (handleSubmit_validate_false _ Hv). cbn [fst snd].
  destruct (focusFirstError_rest (hideSuccess p)) as (Hn & Hb & Ht & Hs).
  destruct (validateForm_rest (hideSuccess p)) as (Hb' & _ & Ht' & Hs').
  destruct (hideSuccess_rest p) as (Hb'' & _ & Ht'' & Hs'').
  split; [done |]. split; [by rewrite Hs, Hs' |].
  split; [by rewrite Ht, Ht' |]. split; [by rewrite Hb, Hb' |].
  intros before f after F Hk Hbefore Hm HF.
  apply (focusFirstError_first _ before f after F Hk); [| | done].
  - eapply Forall_impl; [exact Hbefore |]. intros g <-. by apply markedInvalid_nodes.
  - rewrite <- Hm. by apply markedInvalid_nodes.
Qed.

Lemma handleSubmit_invalid_witness :
  (handleSubmit Sample.invalid).1 = Returned ∧
  sent (handleSubmit Sample.invalid).2 = [] ∧
  markedInvalid (handleSubmit Sample.invalid).2 "message" = true ∧
  activeElement (handleSubmit Sample.invalid).2 = Some "email".
Proof.
  pose proof (handleSubmit_invalid Sample.invalid eq_refl) as (H1 & H2 & _ & _ & H5).
  split; [exact H1 |]. split; [exact H2 |]. split; [reflexivity |].
  apply (H5 ["name"] "email" ["phone"; "subject"; "message"]
           (mkField "email" "email-error" validateEmail None)).
  - reflexivity.
  - constructor; [reflexivity | constructor].
  - reflexivity.
  - reflexivity.
Defined.


Lemma fmap_const_eq {A B C} (f : A → B) (x : C) (a b : option A) :
  f <$> a = f <$> b → (λ _, x) <$> a = (λ _, x) <$> b.
Proof. by destruct a, b. Qed.

(** The page at the [await], by its parts. *)
Lemma handleSubmit_awaiting p text p1 :
  handleSubmit p = (Awaiting text, p1) →
  (validateForm p).1 = true ∧
  nodes p1 = nodes (validateForm (hideSuccess p)).2 ∧
  (∃ button, submitButton p = Some button ∧ text = textContent button ∧
     submitButton p1 =
       Some (setTextContent (lit "Sending...") (setDisabled true button))) ∧
  sent p1 = sent p ++ [formData (validateForm (hideSuccess p)).2] ∧
  timers p1 =
    timers p ++ [(1000, SubmissionDone (formData (validateForm (hideSuccess p)).2))].
Proof.
  unfold handleSubmit. intros (Hv & button & Hb & -> & ->)%handleSubmit_validate_awaiting.
  rewrite validateForm_hideSuccess in Hv.
  destruct (validateForm_rest (hideSuccess p)) as (_ & _ & Ht & Hs).
  destruct (hideSuccess_rest p) as (Hb' & _ & Ht' & Hs').
  split; [done |]. split; [done |]. split.
  - exists button. by rewrite <- Hb'.
  - cbn [simulateFormSubmission setSubmitButton setTimeout sent timers].
    by rewrite Hs, Hs', Ht, Ht'.
Qed.

(** The catch block, on any page. *)
Lemma handleSubmit_rejected_spec {E} (error : E) text p :
  let p2 := handleSubmit_rejected error text p in
  nodes p2 = nodes (showError "message" failureMessage p) ∧
  submitButton p2 = setTextContent text ∘ setDisabled false <$> submitButton p ∧
  activeElement p2 = activeElement p ∧ timers p2 = timers p ∧ sent p2 = sent p.
Proof.
  unfold handleSubmit_rejected, restoreButton.
  destruct (showError_rest "message" failureMessage p) as (Hb & Ha & Ht & Hs).
  rewrite Hb.
  destruct (submitButton p) as [button|];
    cbn [nodes submitButton activeElement timers sent setSubmitButton fmap option_fmap option_map];
    by rewrite ?Hb, ?Ha, ?Ht, ?Hs.
Qed.

(** C2. When the awaited call fails, whatever the reason: the text
    "Failed to send message. Please try again or contact us directly." is
    shown in the error slot of the message field, the submit control is
    enabled again under its original label, the success indicator stays
    hidden, no value changes, and the submission function is not called
    again nor a timer set.  On whatever the page has become when the call
    fails, the catch block shows this text and enables the control under
    the captured label; the success indicator, the values, the calls made
    and the timers are as they were. *)
Theorem handleSubmit_failure {E} p text p1 (reason : E) :
  handleSubmit p = (Awaiting text, p1) →
  let p2 := handleSubmit_resume (Rejected reason) text p1 in
  textContent <$> nodes p2 !! "message-error" =
    (λ _, lit "Failed to send message. Please try again or contact us directly.")
      <$> nodes p !! "message-error" ∧
  display <$> nodes p2 !! "message-error" =
    (λ _, lit "block") <$> nodes p !! "message-error" ∧
  disabled <$> submitButton p2 = Some false ∧
  textContent <$> submitButton p2 = textContent <$> submitButton p ∧
  display <$> nodes p2 !! successMessage =
    (λ _, lit "none") <$> nodes p !! successMessage ∧
  (∀ id, value <$> nodes p2 !! id = value <$> nodes p !! id) ∧
  sent p2 = sent p1 ∧ timers p2 = timers p1 ∧
  length (sent p2) = S (length (sent p)) ∧
  (∀ reason' : E, handleSubmit_resume (Rejected reason') text p1 = p2) ∧
  (∀ q, let q2 := handleSubmit_resume (Rejected reason) text q in
     textContent <$> nodes q2 !! "message-error" =
       (λ _, lit "Failed to send message. Please try again or contact us directly.")
         <$> nodes q !! "message-error" ∧
     submitButton q2 = setTextContent text ∘ setDisabled false <$> submitButton q ∧
     nodes q2 !! successMessage = nodes q !! successMessage ∧
     (∀ id, value <$> nodes q2 !! id = value <$> nodes q !! id) ∧
     sent q2 = sent q ∧ timers q2 = timers q).
Proof.
  change (lit "Failed to send message. Please try again or contact us directly.")
    with failureMessage.
  intros (Hv & Hn & (button & Hb & -> & Hb1) & Hs & Ht)%handleSubmit_awaiting.
  cbn [handleSubmit_resume].
  destruct (handleSubmit_rejected_spec reason (textContent button) p1)
    as (Hn2 & Hb2 & _ & Ht2 & Hs2).
  assert (Hval : ∀ id, value <$> nodes p1 !! id = value <$> nodes p !! id).
  { intros id. by rewrite Hn, validateForm_value, hideSuccess_value. }
  destruct (showError_own "message" failureMessage p1
              (mkField "message" "message-error" validateMessage None) eq_refl)
    as [Hslot _]. cbn [error] in Hslot.
  cbn zeta. rewrite Hn2, Hb2, Hs2, Ht2, Hb1, Hb, Hs.
  split; [| split; [| split; [| split; [| split; [| split]]]]].
  - rewrite Hslot, <- option_fmap_compose.
    transitivity ((λ _, failureMessage) <$> nodes p1 !! "message-error");
      [by destruct (nodes p1 !! "message-error") | apply (fmap_const_eq value), Hval].
  - rewrite Hslot, <- option_fmap_compose.
    transitivity ((λ _, lit "block") <$> nodes p1 !! "message-error");
      [by destruct (nodes p1 !! "message-error") | apply (fmap_const_eq value), Hval].
  - done.
  - done.
  - rewrite (showError_other "message" failureMessage p1 _ successMessage eq_refl)
      by done.
    rewrite Hn, validateForm_success, hideSuccess_own, <- option_fmap_compose.
    by destruct (nodes p !! successMessage).
  - intros id. by rewrite showError_value.
  - split; [done |]. split; [done |]. split; [| split; [done |]].
    { rewrite length_app. simpl. lia. }
    intros q. cbn zeta. cbn [handleSubmit_resume].
    destruct (handleSubmit_rejected_spec reason (textContent button) q)
      as (-> & -> & _ & -> & ->).
    destruct (showError_own "message" failureMessage q
                (mkField "message" "message-error" validateMessage None) eq_refl)
      as [Hq _]. cbn [error] in Hq.
    split; [rewrite Hq; by destruct (nodes q !! "message-error") |].
    split; [done |].
    split; [by apply (showError_other "message" failureMessage q _ successMessage eq_refl) |].
    split; [intros id; apply showError_value | done].
Qed.

Lemma handleSubmit_failure_witness :
  let p1 := (handleSubmit Sample.valid).2 in
  let p2 := handleSubmit_resume (Rejected 503) (lit "Send Message") p1 in
  textContent <$> nodes p2 !! "message-error" =
    Some (lit "Failed to send message. Please try again or contact us directly.") ∧
  disabled <$> submitButton p2 = Some false ∧
  textContent <$> submitButton p2 = Some (lit "Send Message") ∧
  display <$> nodes p2 !! successMessage = Some (lit "none") ∧
  value <$> nodes p2 !! "message" = Some (lit "Hello there!") ∧
  length (sent p2) = 1.
Proof.
  assert (H : handleSubmit Sample.valid
              = (Awaiting (lit "Send Message"), (handleSubmit Sample.valid).2))
    by (vm_compute; reflexivity).
  pose proof (handleSubmit_failure Sample.valid (lit "Send Message")
                (handleSubmit Sample.valid).2 503 H)
    as (H1 & _ & H3 & H4 & H5 & H6 & _ & _ & H9 & _).
  cbn zeta. rewrite H1, H3, H4, H5, (H6 "message"), H9.
  vm_compute. repeat split.
Defined.


(** The handler, invoked on a page whose fields are all valid: it does not
    look at the state of the submit control. *)
Lemma handleSubmit_valid p button :
  (validateForm p).1 = true → submitButton p = Some button →
  handleSubmit p =
    (Awaiting (textContent button),
     simulateFormSubmission (formData (validateForm (hideSuccess p)).2)
       (setSubmitButton (setTextContent (lit "Sending...") (setDisabled true button))
          (validateForm (hideSuccess p)).2)).
Proof.
  intros Hv Hb. rewrite <- validateForm_hideSuccess in Hv.
  unfold handleSubmit. rewrite (handleSubmit_validate_true _ Hv).
  destruct (hideSuccess_rest p) as (-> & _). by rewrite Hb.
Qed.

End Handler.

(** ** The transitions of an attempt *)

Section AttemptProperties.

Import Attempt.

Context {E : Type}.
Implicit Types (p q : Page) (c : Control E) (ev : Event E) (text : jsstring).

Lemma takeTimer_Forall (P : nat * Callback → Prop) t ts ts' :
  takeTimer t ts = Some ts' → Forall P ts → Forall P ts'.
Proof.
  revert ts'. induction ts as [|t' ts IH]; intros ts'; simpl; [done |].
  intros H Hall. apply Forall_cons in Hall as [Ht' Hall].
  case_bool_decide.
  - by injection H as <-.
  - destruct (takeTimer t ts) as [r|]; [| done]. injection H as <-.
    apply Forall_cons. split; [done | by apply IH].
Qed.

Lemma showSuccess_rest p :
  submitButton (showSuccess p) = submitButton p ∧
  timers (showSuccess p) = timers p ∧ sent (showSuccess p) = sent p.
Proof.
  unfold showSuccess. destruct (nodes p !! successMessage); [| done].
  apply (focus_rest successMessage (setNode _ _ p)).
Qed.

Lemma restoreButton_spec text p :
  nodes (restoreButton text p) = nodes p ∧
  submitButton (restoreButton text p) =
    setTextContent text ∘ setDisabled false <$> submitButton p ∧
  timers (restoreButton text p) = timers p ∧ sent (restoreButton text p) = sent p.
Proof.
  unfold restoreButton. destruct (submitButton p) as [button|] eqn:Hb;
    cbn [nodes submitButton timers sent setSubmitButton fmap option_fmap option_map];
    by rewrite ?Hb.
Qed.

Lemma clear_loop_rest (l : list string) : ∀ p,
  let p' := foldl (λ q fieldName, clearError fieldName q) p l in
  submitButton p' = submitButton p ∧ timers p' = timers p ∧ sent p' = sent p.
Proof.
  induction l as [|f l IH]; intros p; [done |]. cbn [foldl]. cbn zeta.
  destruct (IH (clearError f p)) as (-> & -> & ->).
  by destruct (clearError_rest f p) as (-> & _ & -> & ->).
Qed.

Lemma clear_loop_value (l : list string) : ∀ p id,
  value <$> nodes (foldl (λ q fieldName, clearError fieldName q) p l) !! id
    = value <$> nodes p !! id.
Proof.
  induction l as [|f l IH]; intros p id; [done |]. cbn [foldl].
  rewrite IH. apply clearError_value.
Qed.

Lemma resetForm_rest p :
  submitButton (resetForm p) = submitButton p ∧
  timers (resetForm p) = timers p ∧ sent (resetForm p) = sent p.
Proof.
  unfold resetForm.
  destruct (hideSuccess_rest (foldl (λ q fieldName, clearError fieldName q) (reset p)
                                (keys formFields))) as (-> & _ & -> & ->).
  by destruct (clear_loop_rest (keys formFields) (reset p)) as (-> & -> & ->).
Qed.

(** After the reset every control of the form holds its default value. *)
Lemma resetForm_value p id :
  value <$> nodes (resetForm p) !! id =
    (λ e, if form e then defaultValue e else value e) <$> nodes p !! id.
Proof.
  unfold resetForm. rewrite hideSuccess_value, clear_loop_value.
  cbn [reset nodes]. rewrite lookup_fmap, <- option_fmap_compose.
  destruct (nodes p !! id) as [e|]; [| done]. cbn. by destruct (form e).
Qed.

Lemma timersOk_snoc p delay callback q :
  timersOk p → timers q = timers p ++ [(delay, callback)] →
  match callback with
  | SubmissionDone _ => delay = 1000
  | ResetAfterSuccess _ => delay = 3000
  end →
  timersOk q.
Proof.
  unfold timersOk. intros Hp -> Hd. apply Forall_app. split; [done |].
  by apply Forall_singleton.
Qed.

(** The synchronous part keeps the timers in order. *)
Lemma handleSubmit_validate_timersOk p :
  timersOk p → timersOk (handleSubmit_validate p).2.
Proof.
  intros Hp. destruct (validateForm_rest p) as (Hb & _ & Ht & _).
  destruct (validateForm p).1 eqn:Hv.
  - rewrite (handleSubmit_validate_true _ Hv).
    destruct (submitButton p) as [button|]; cbn [snd].
    + apply (timersOk_snoc p 1000 (SubmissionDone (formData (validateForm p).2)));
        [done | | done].
      cbn [simulateFormSubmission setSubmitButton setTimeout timers]. by rewrite Ht.
    + unfold timersOk. by rewrite Ht.
  - rewrite (handleSubmit_validate_false _ Hv). cbn [snd].
    destruct (focusFirstError_rest p) as (_ & _ & Ht' & _).
    unfold timersOk. by rewrite Ht', Ht.
Qed.


Lemma Some_pair_inv {A B} (a a' : A) (b b' : B) :
  Some (a, b) = Some (a', b') → a = a' ∧ b = b'.
Proof. by intros [= -> ->]. Qed.

Lemma takeTimer_elem_of t ts ts' : takeTimer t ts = Some ts' → t ∈ ts.
Proof.
  revert ts'. induction ts as [|t' ts IH]; intros ts'; simpl; [done |].
  case_bool_decide as Heq.
  - intros _. subst. left.
  - destruct (takeTimer t ts) as [r|]; [| done]. intros _. right. by apply (IH r).
Qed.

(** C3, as amended.  An attempt moves along Idle, Validating, then Idle
    again or Sending, then Succeeded or Failed, then Idle.  It leaves
    Validating for Idle when the validation fails and reaches Sending only
    when it passes, with the control disabled.  It leaves Succeeded only
    when the timer of 3000 milliseconds runs out, with the form reset and
    the control enabled; it leaves Failed at once, without a timer, with
    the control enabled and the values kept. *)
Theorem attempt_transitions c ev p c' p' :
  timersOk p → step c ev p = Some (c', p') →
  allowed (state c) (state c') = true ∧ timersOk p' ∧
  (state c = Validating → (validateForm p).1 = false →
     state c' = Idle ∧ sent p' = sent p) ∧
  (state c' = Sending →
     (validateForm p).1 = true ∧ disabled <$> submitButton p' = Some true) ∧
  (state c = Succeeded →
     state c' = Idle ∧ waited ev = 3000 ∧
     disabled <$> submitButton p' = (λ _, false) <$> submitButton p ∧
     ∀ id, value <$> nodes p' !! id =
             (λ e, if form e then defaultValue e else value e) <$> nodes p !! id) ∧
  (state c = Failed →
     state c' = Idle ∧ waited ev = 0 ∧ timers p' = timers p ∧
     disabled <$> submitButton p' = (λ _, false) <$> submitButton p ∧
     ∀ id, value <$> nodes p' !! id = value <$> nodes p !! id).
Proof.
  intros Hok Hstep.
  destruct c as [| |text|text|reason text];
    destruct ev as [| |[|reason']|delay [data|text']]; try discriminate Hstep;
    cbn [step] in Hstep.
  - (* the submit event *)
    apply Some_pair_inv in Hstep as [<- <-]. cbn [state allowed].
    destruct (hideSuccess_rest p) as (_ & _ & Ht & _).
    split; [done |]. split; [unfold timersOk; by rewrite Ht |].
    by repeat split.
  - (* the validation *)
    pose proof (handleSubmit_validate_timersOk p Hok) as Hok'.
    destruct (validateForm p).1 eqn:Hv.
    + rewrite (handleSubmit_validate_true _ Hv) in Hstep, Hok'.
      destruct (submitButton p) as [button|]; apply Some_pair_inv in Hstep as [<- <-];
        cbn [state allowed snd] in *; by repeat split.
    + rewrite (handleSubmit_validate_false _ Hv) in Hstep, Hok'.
      apply Some_pair_inv in Hstep as [<- <-]. cbn [state allowed snd] in *.
      destruct (focusFirstError_rest p) as (_ & _ & _ & Hs).
      destruct (validateForm_rest p) as (_ & _ & _ & Hs').
      split; [done |]. split; [done |]. split; [| by repeat split].
      intros _ _. split; [done |]. by rewrite Hs, Hs'.
  - (* the promise is fulfilled *)
    apply Some_pair_inv in Hstep as [<- <-]. cbn [state allowed].
    split; [done |]. split; [| by repeat split].
    destruct (showSuccess_rest p) as (_ & Ht & _).
    apply (timersOk_snoc p 3000 (ResetAfterSuccess text)); [done | | done].
    unfold handleSubmit_fulfilled. cbn [setTimeout timers]. by rewrite Ht.
  - (* the promise is rejected *)
    apply Some_pair_inv in Hstep as [<- <-]. cbn [state allowed]. by repeat split.
  - (* the timer of the simulation runs out *)
    destruct (takeTimer _ (timers p)) as [ts|] eqn:Htake; [| done].
    apply Some_pair_inv in Hstep as [<- <-]. cbn [state allowed].
    split; [done |]. split; [| by repeat split].
    destruct (showSuccess_rest (setTimers ts p)) as (_ & Ht & _).
    apply (timersOk_snoc (setTimers ts p) 3000 (ResetAfterSuccess text)); [| | done].
    + unfold timersOk. cbn [setTimers timers]. by apply (takeTimer_Forall _ _ _ _ Htake).
    + unfold handleSubmit_fulfilled. cbn [setTimeout timers]. by rewrite Ht.
  - (* the timer of the reset runs out *)
    destruct (takeTimer _ (timers p)) as [ts|] eqn:Htake; [| done].
    case_bool_decide as Htext; [| done]. apply Some_pair_inv in Hstep as [<- <-]. subst text'.
    cbn [state allowed waited].
    destruct (restoreButton_spec text (resetForm (setTimers ts p))) as (Hn & Hb & Ht & _).
    destruct (resetForm_rest (setTimers ts p)) as (Hb' & Ht' & _).
    split; [done |]. split.
    { unfold timersOk, resetAfterSuccess. rewrite Ht, Ht'. cbn [setTimers timers].
      by apply (takeTimer_Forall _ _ _ _ Htake). }
    split; [done |]. split; [done |]. split; [| done].
    intros _. split; [done |]. split.
    { apply takeTimer_elem_of in Htake.
      unfold timersOk in Hok. rewrite Forall_forall in Hok.
      exact (Hok _ Htake). }
    unfold resetAfterSuccess. split.
    + rewrite Hb, Hb'. cbn [setTimers submitButton].
      by destruct (submitButton p).
    + intros id. by rewrite Hn, resetForm_value.
  - (* the catch block *)
    apply Some_pair_inv in Hstep as [<- <-]. cbn [state allowed waited].
    destruct (handleSubmit_rejected_spec reason text p) as (Hn & Hb & _ & Ht & _).
    split; [done |]. split; [unfold timersOk; by rewrite Ht |].
    split; [done |]. split; [done |]. split; [done |].
    intros _. split; [done |]. split; [done |]. split; [done |]. split.
    + rewrite Hb. by destruct (submitButton p).
    + intros id. by rewrite Hn, showError_value.
Qed.


End AttemptProperties.

Section AttemptExamples.

Import Attempt.

Lemma attempt_transitions_witness :
  timersOk Sample.succeeded ∧
  fst <$> step (E := nat) (Resolved (lit "Send Message"))
            (TimerFired 3000 (ResetAfterSuccess (lit "Send Message")))
            Sample.succeeded = Some NotRunning ∧
  disabled <$> submitButton Sample.succeeded = Some true ∧
  disabled <$> submitButton
    (resetAfterSuccess (lit "Send Message") (setTimers []
       Sample.succeeded)) = Some false.
Proof.
  assert (Hok : timersOk Sample.succeeded).
  { unfold timersOk. set (ts := timers Sample.succeeded). vm_compute in ts.
    subst ts. by repeat constructor. }
  assert (Hstep : step (E := nat) (Resolved (lit "Send Message"))
            (TimerFired 3000 (ResetAfterSuccess (lit "Send Message")))
            Sample.succeeded
          = Some (NotRunning,
                  resetAfterSuccess (lit "Send Message")
                    (setTimers [] Sample.succeeded)))
    by (vm_compute; reflexivity).
  destruct (attempt_transitions _ _ _ _ _ Hok Hstep) as (_ & _ & _ & _ & Hs & _).
  destruct (Hs eq_refl) as (_ & _ & Hb & _).
  split; [exact Hok |]. split; [by rewrite Hstep |]. split; [by vm_compute |].
  rewrite Hb. by vm_compute.
Defined.

(** C3, as the specification words it, fails: an attempt that the
    submission function rejects is back at Idle, the control enabled, by
    steps of the handler alone: none of its events waits for a timer. *)
Lemma failed_attempt_returns_at_once :
  (λ cp, (state cp.1, disabled <$> submitButton cp.2))
    <$> run NotRunning Sample.valid Sample.rejection
  = [ (Validating, Some false); (Sending, Some true);
      (Failed, Some true); (Idle, Some false) ] ∧
  waited <$> Sample.rejection = [0; 0; 0; 0].
Proof. by vm_compute. Qed.

(** The attempt of the specification that succeeds: the control is
    disabled while the attempt is pending, the success indicator is shown
    at Succeeded, and the attempt is back at Idle when the timer of 3000
    milliseconds has run out. *)
Example successful_attempt :
  (λ cp, (state cp.1, disabled <$> submitButton cp.2,
          display <$> nodes cp.2 !! successMessage))
    <$> run NotRunning Sample.valid Sample.success
  = [ (Validating, Some false, Some (lit "none"));
      (Sending, Some true, Some (lit "none"));
      (Succeeded, Some true, Some (lit "block"));
      (Idle, Some false, Some (lit "none")) ] ∧
  waited <$> Sample.success = [0; 0; 1000; 3000].
Proof. by vm_compute. Qed.

End AttemptExamples.

(** * Further properties *)

(** ** What the validators accept *)

Section Accepted.

Implicit Types (value s : jsstring).

(** X1. [validateName] accepts a value exactly when its trimmed length is
    between 2 and 100. *)
Theorem validateName_accepts value :
  validateName value = [] ↔ 2 ≤ length (trim value) ∧ length (trim value) ≤ 100.
Proof.
  unfold validateName. rewrite blank_length.
  destruct (Nat.eqb_spec (length (trim value)) 0) as [H0|H0].
  { split; [by intros H; vm_compute in H | intros [H _]; rewrite H0 in H; lia]. }
  destruct (Nat.ltb_spec (length (trim value)) 2) as [H2|H2].
  { split; [by intros H; vm_compute in H | lia]. }
  destruct (Nat.ltb_spec 100 (length (trim value))) as [H100|H100].
  { split; [by intros H; vm_compute in H | lia]. }
  done.
Qed.

(** X2. [validateMessage] accepts a value exactly when its trimmed length
    is between 10 and 2000. *)
Theorem validateMessage_accepts value :
  validateMessage value = [] ↔
    10 ≤ length (trim value) ∧ length (trim value) ≤ 2000.
Proof.
  unfold validateMessage. rewrite blank_length.
  destruct (Nat.eqb_spec (length (trim value)) 0) as [H0|H0].
  { split; [by intros H; vm_compute in H |].
    intros [H _]. rewrite H0 in H. by apply Nat.nle_succ_0 in H. }
  destruct (Nat.ltb_spec (length (trim value)) 10) as [H10|H10].
  { split; [by intros H; vm_compute in H |].
    intros [H _]. by apply Nat.lt_nge in H10. }
  destruct (Nat.ltb_spec 2000 (length (trim value))) as [H2000|H2000].
  { split; [by intros H; vm_compute in H |].
    intros [_ H]. by apply Nat.lt_nge in H2000. }
  done.
Qed.

Lemma forallb_impl (f g : N → bool) s :
  (∀ c, f c = true → g c = true) → forallb f s = true → forallb g s = true.
Proof.
  intros Hfg. induction s as [|c s IH]; simpl; [done |].
  intros [Hc Hs]%andb_true_iff. by rewrite (Hfg c Hc), IH.
Qed.

(** X3. [validatePhone] accepts a value exactly when every code unit of it
    is a digit, white space, [+], [-] or a parenthesis; the empty value is
    among them, and no digit is asked for. *)
Theorem validatePhone_accepts value :
  validatePhone value = [] ↔ forallb phoneClass value = true.
Proof.
  rewrite validatePhone_cases, blank_whitespace.
  destruct (forallb isWhiteSpace value) eqn:Hws.
  - split; [| done]. intros _. revert Hws. apply forallb_impl.
    intros c Hc. unfold phoneClass. rewrite Hc. by destruct (isDigit c).
  - destruct (forallb phoneClass value); [done |].
    split; [by intros H; vm_compute in H | done].
Qed.


Lemma lang_plus_class p s :
  lang (Plus (Class p)) s ↔ s ≠ [] ∧ forallb p s = true.
Proof.
  rewrite <- test_lang, test_plus_class, andb_true_iff, negb_true_iff,
    bool_decide_eq_false. done.
Qed.

Lemma lang_chr c s : lang (Chr c) s ↔ s = [c].
Proof.
  unfold Chr. split.
  - intros (c' & -> & ->%N.eqb_eq)%lang_class_inv. done.
  - intros ->. constructor. apply N.eqb_refl.
Qed.

(** The words of the pattern of [validateEmail]. *)
Lemma lang_emailRegex s :
  lang emailRegex s ↔
    ∃ l d t, s = l ++ [64%N] ++ d ++ [46%N] ++ t ∧
      l ≠ [] ∧ d ≠ [] ∧ t ≠ [] ∧
      forallb notSpaceAt l = true ∧ forallb notSpaceAt d = true ∧
      forallb notSpaceAt t = true.
Proof.
  unfold emailRegex. split.
  - intros (l & r1 & -> & [Hl Hl']%lang_plus_class & H1)%lang_cat_inv.
    apply lang_cat_inv in H1 as (a & r2 & -> & ->%lang_chr & H2).
    apply lang_cat_inv in H2 as (d & r3 & -> & [Hd Hd']%lang_plus_class & H3).
    apply lang_cat_inv in H3 as (b & t & -> & ->%lang_chr & [Ht Ht']%lang_plus_class).
    by exists l, d, t.
  - intros (l & d & t & -> & Hl & Hd & Ht & Hl' & Hd' & Ht').
    apply lang_cat; [by apply lang_plus_class |].
    apply (lang_cat _ _ [64%N]); [by apply lang_chr |].
    apply lang_cat; [by apply lang_plus_class |].
    apply (lang_cat _ _ [46%N]); [by apply lang_chr | by apply lang_plus_class].
Qed.

Lemma notSpaceAt_not_blank c s :
  c ∈ s → notSpaceAt c = true → blank s = false.
Proof.
  intros Hin Hc. apply (not_blank c); [done |].
  unfold notSpaceAt in Hc. by destruct (isWhiteSpace c).
Qed.

(** X4. [validateEmail] accepts a value exactly when it is a local part,
    an [@], a domain part, a dot and a last part, the three parts not
    empty and free of white space and of [@]. *)
Theorem validateEmail_accepts value :
  validateEmail value = [] ↔
    ∃ l d t, value = l ++ [64%N] ++ d ++ [46%N] ++ t ∧
      l ≠ [] ∧ d ≠ [] ∧ t ≠ [] ∧
      forallb notSpaceAt l = true ∧ forallb notSpaceAt d = true ∧
      forallb notSpaceAt t = true.
Proof.
  rewrite <- lang_emailRegex, <- test_lang. unfold validateEmail. split.
  - destruct (blank value); [by intros H; vm_compute in H |].
    destruct (test emailRegex value); [done | by intros H; vm_compute in H].
  - intros Ht. rewrite Ht.
    apply test_lang, lang_emailRegex in Ht as (l & d & t & -> & Hl & _ & _ & Hl' & _).
    destruct l as [|c l]; [done |]. simpl in Hl'.
    apply andb_true_iff in Hl' as [Hc _].
    by rewrite (notSpaceAt_not_blank c) by (done || left).
Qed.

(** X5. A value that [validateEmail] accepts has no white space, not at
    its ends either, and exactly one [@]. *)
Theorem validateEmail_accepted_shape value :
  validateEmail value = [] →
  forallb (λ c, negb (isWhiteSpace c)) value = true ∧
  length (filter (λ c, c = 64%N) value) = 1.
Proof.
  intros H.
  assert (Hm : test emailRegex value = true).
  { unfold validateEmail in H. destruct (blank value); [by vm_compute in H |].
    destruct (test emailRegex value); [done | by vm_compute in H]. }
  apply test_lang, lang_emailRegex in Hm as (l & d & t & -> & _ & _ & _ & Hl & Hd & Ht).
  clear H. unfold jsstring in *.
  assert (Hns : ∀ s : list N, forallb notSpaceAt s = true →
            forallb (λ c, negb (isWhiteSpace c)) s = true ∧
            filter (λ c, c = 64%N) s = []).
  { intros s. induction s as [|c s IH]; [done |]. cbn [forallb].
    intros [Hc Hs]%andb_true_iff. destruct (IH Hs) as [Hf1 Hf2].
    unfold notSpaceAt in Hc. apply negb_true_iff, orb_false_iff in Hc as [Hw Hc].
    split; [by rewrite Hw, Hf1 |].
    rewrite filter_cons, Hf2. case_decide as Heq; [| done]. by subst c. }
  destruct (Hns l Hl) as [Hl1 Hl2], (Hns d Hd) as [Hd1 Hd2], (Hns t Ht) as [Ht1 Ht2].
  split.
  - by rewrite !forallb_app, Hl1, Hd1, Ht1.
  - by rewrite !filter_app, Hl2, Hd2, Ht2.
Qed.

Lemma validateEmail_accepted_shape_witness :
  forallb (λ c, negb (isWhiteSpace c)) (lit "jo@x.com") = true ∧
  length (filter (λ c, c = 64%N) (lit "jo@x.com")) = 1.
Proof. apply validateEmail_accepted_shape. reflexivity. Defined.

End Accepted.

(** ** More on one field *)

Section FieldState.

Implicit Types (p : Page) (fieldName id : string) (field : Field) (message : jsstring).

(** X6. A required field left empty or with white space only is invalid,
    whichever of the four it is; the phone alone is valid then. *)
Theorem validateField_blank fieldName field p el :
  get formFields fieldName = Some field →
  nodes p !! element field = Some el →
  forallb isWhiteSpace (value el) = true →
  (validateField fieldName p).1 = bool_decide (fieldName = "phone").
Proof.
  intros Hget Hel Hb. rewrite <- blank_whitespace in Hb.
  rewrite (validateField_known _ _ _ _ Hget Hel).
  apply get_elem_of in Hget. unfold formFields in Hget.
  repeat (apply elem_of_cons in Hget as [[= -> ->]|Hget];
    [unfold fieldError; cbn [required validator];
     unfold validateName, validateEmail, validateSubject, validateMessage;
     by rewrite Hb |]).
  by apply elem_of_nil in Hget.
Qed.

Lemma validateField_blank_witness :
  (validateField "subject"
     (Sample.page (lit "Jo") (lit "jo@x.com") [] (lit "  ") (lit "Hello there!"))).1
    = false ∧
  (validateField "phone"
     (Sample.page (lit "Jo") (lit "jo@x.com") (lit "  ") (lit "General")
        (lit "Hello there!"))).1 = true.
Proof.
  split.
  - apply (validateField_blank "subject"
             (mkField "subject" "subject-error" validateSubject None)
             (Sample.page (lit "Jo") (lit "jo@x.com") [] (lit "  ") (lit "Hello there!"))
             (Sample.input (lit "  "))); reflexivity.
  - apply (validateField_blank "phone"
             (mkField "phone" "phone-error" validatePhone (Some false))
             (Sample.page (lit "Jo") (lit "jo@x.com") (lit "  ") (lit "General")
                (lit "Hello there!"))
             (Sample.input (lit "  "))); reflexivity.
Defined.

(** X7. A field whose error slot is not in the page is validated, but
    nothing is written: no message and no invalid mark, whatever the
    value. *)
Theorem validateField_no_slot fieldName field p :
  get formFields fieldName = Some field → nodes p !! error field = None →
  (validateField fieldName p).2 = p ∧
  ∀ el, nodes p !! element field = Some el →
    (validateField fieldName p).1 = negb (truthy (fieldError field (value el))).
Proof.
  intros Hget Herr. destruct (nodes p !! element field) as [el|] eqn:Hel.
  - rewrite (validateField_known _ _ _ _ Hget Hel).
    destruct (truthy _) eqn:Ht; cbn [fst snd].
    + split; [by apply (showError_no_slot _ field) | intros ? [= <-]; by rewrite Ht].
    + split; [by apply (clearError_no_slot _ field) | intros ? [= <-]; by rewrite Ht].
  - by rewrite (validateField_no_element _ _ _ Hget Hel).
Qed.

Lemma validateField_no_slot_witness :
  validateField "email" Sample.slotless = (false, Sample.slotless).
Proof.
  pose proof (validateField_no_slot "email"
                (mkField "email" "email-error" validateEmail None)
                Sample.slotless eq_refl eq_refl) as [Hp Hr].
  rewrite (surjective_pairing (validateField "email" Sample.slotless)), Hp.
  by rewrite (Hr (Sample.input (lit "nobody")) eq_refl).
Defined.


(** X8. After [validateField] on a field with its two elements, the mark,
    the class, the message and its display all say what the validation has
    returned: invalid exactly when the value has an error text, which is
    then the message shown. *)
Theorem validateField_consistent fieldName field p el err :
  get formFields fieldName = Some field →
  nodes p !! element field = Some el → nodes p !! error field = Some err →
  let ok := (validateField fieldName p).1 in
  let p' := (validateField fieldName p).2 in
  (ok = true ↔ fieldError field (value el) = []) ∧
  markedInvalid p' fieldName = negb ok ∧
  classError <$> nodes p' !! element field = Some (negb ok) ∧
  textContent <$> nodes p' !! error field = Some (fieldError field (value el)) ∧
  display <$> nodes p' !! error field = Some (if ok then lit "none" else lit "block").
Proof.
  intros Hget Hel Herr. cbn zeta.
  rewrite (validateField_known _ _ _ _ Hget Hel).
  destruct (fieldError field (value el)) as [|c e] eqn:He; cbn [truthy fst snd negb].
  - destruct (clearError_own fieldName p field Hget) as [Hs He'].
    rewrite Herr, Hel in He'. rewrite Herr in Hs.
    unfold markedInvalid. rewrite Hget, He', Hs. by repeat split.
  - destruct (showError_own fieldName (c :: e) p field Hget) as [Hs He'].
    rewrite Herr, Hel in He'. rewrite Herr in Hs.
    unfold markedInvalid. rewrite Hget, He', Hs. by repeat split.
Qed.

Lemma validateField_consistent_witness :
  let p' := (validateField "email" Sample.invalid).2 in
  (validateField "email" Sample.invalid).1 = false ∧
  markedInvalid p' "email" = true ∧
  textContent <$> nodes p' !! "email-error" =
    Some (lit "Please enter a valid email address") ∧
  display <$> nodes p' !! "email-error" = Some (lit "block").
Proof.
  pose proof (validateField_consistent "email"
                (mkField "email" "email-error" validateEmail None) Sample.invalid
                (Sample.input (lit "not-an-email")) Sample.slot eq_refl eq_refl eq_refl)
    as (_ & H2 & _ & H4 & H5).
  split; [reflexivity |]. split; [exact H2 |]. split; [exact H4 | exact H5].
Defined.

(** X9. [validateField] twice in a row, the value untouched, is
    [validateField] once: the same result and the same page. *)
Theorem validateField_idempotent fieldName p :
  validateField fieldName (validateField fieldName p).2 = validateField fieldName p.
Proof. apply validateField_again. Qed.

End FieldState.

(** ** More on the form and the submit handler *)

Section FormState.

Implicit Types (p q : Page) (fieldName id : string) (field : Field).

(** X10. [validateForm] changes no value and nothing but elements of the
    fields: every other element, the submit control, the focus, the timers
    and the calls made stay as they are. *)
Theorem validateForm_frame p :
  let p' := (validateForm p).2 in
  (∀ id, value <$> nodes p' !! id = value <$> nodes p !! id) ∧
  (∀ id, (∀ fieldName field, get formFields fieldName = Some field →
            id ≠ element field ∧ id ≠ error field) →
         nodes p' !! id = nodes p !! id) ∧
  submitButton p' = submitButton p ∧ activeElement p' = activeElement p ∧
  timers p' = timers p ∧ sent p' = sent p.
Proof.
  split; [apply validateForm_value |]. split; [| apply validateForm_rest].
  intros id Hout. by apply validate_loop_outside.
Qed.

(** X11. Whatever way [handleSubmit] takes, it leaves an earlier success
    indicator hidden. *)
Theorem handleSubmit_hides_success p :
  display <$> nodes (handleSubmit p).2 !! successMessage =
    (λ _, lit "none") <$> nodes p !! successMessage.
Proof.
  assert (Hq : display <$> nodes (validateForm (hideSuccess p)).2 !! successMessage
               = (λ _, lit "none") <$> nodes p !! successMessage).
  { rewrite validateForm_success, hideSuccess_own, <- option_fmap_compose.
    by destruct (nodes p !! successMessage). }
  unfold handleSubmit. destruct (validateForm (hideSuccess p)).1 eqn:Hv.
  - rewrite (handleSubmit_validate_true _ Hv).
    by destruct (submitButton (hideSuccess p)).
  - rewrite (handleSubmit_validate_false _ Hv). cbn [snd].
    by destruct (focusFirstError_rest (hideSuccess p)) as [-> _].
Qed.

Lemma markedInvalid_local p q fieldName field :
  get formFields fieldName = Some field →
  nodes p !! element field = nodes q !! element field →
  markedInvalid p fieldName = markedInvalid q fieldName.
Proof. intros Hget H. unfold markedInvalid. by rewrite Hget, H. Qed.

(** On a field with its two elements the mark is what [validateField]
    returns. *)
Lemma validateField_mark fieldName field p :
  get formFields fieldName = Some field →
  is_Some (nodes p !! element field) → is_Some (nodes p !! error field) →
  markedInvalid (validateField fieldName p).2 fieldName
    = negb (validateField fieldName p).1.
Proof.
  intros Hget [el Hel] [err Herr].
  rewrite (validateField_known _ _ _ _ Hget Hel).
  destruct (truthy _); cbn [fst snd negb].
  - rewrite (showError_both _ _ _ _ _ _ Hget Herr Hel).
    unfold markedInvalid. rewrite Hget. cbn [nodes setNode].
    by rewrite lookup_insert_eq.
  - rewrite (clearError_both _ _ _ _ _ Hget Herr Hel).
    unfold markedInvalid. rewrite Hget. cbn [nodes setNode].
    by rewrite lookup_insert_eq.
Qed.

(** After [validateForm] on a complete page, the marks are the results. *)
Lemma validateForm_marks p fieldName :
  complete p →
  markedInvalid (validateForm p).2 fieldName = negb (validateField fieldName p).1.
Proof.
  intros Hc. destruct (get formFields fieldName) as [field|] eqn:Hget.
  - destruct (Hc _ _ Hget) as [Hel Herr].
    rewrite <- (validateField_mark _ _ _ Hget Hel Herr).
    apply (markedInvalid_local _ _ _ field Hget).
    apply validate_loop_own; [apply keys_formFields_NoDup | | done].
    by apply (get_formFields_key _ field).
  - rewrite (validateField_unknown _ _ Hget). unfold markedInvalid. by rewrite Hget.
Qed.

Lemma forallb_false_split {A} (f : A → bool) (xs : list A) :
  forallb f xs = false →
  ∃ before x after, xs = before ++ x :: after ∧
    Forall (λ y, f y = true) before ∧ f x = false.
Proof.
  induction xs as [|y xs IH]; simpl; [done |].
  destruct (f y) eqn:Hy; simpl.
  - intros (before & x & after & -> & Hb & Hx)%IH.
    exists (y :: before), x, after. split; [done |]. split; [by constructor | done].
  - intros _. by exists [], y, xs.
Qed.

Lemma complete_hideSuccess p : complete p → complete (hideSuccess p).
Proof.
  intros Hc f F Hget. destruct (formFields_not_success _ _ Hget).
  rewrite !hideSuccess_other by done. by apply (Hc f).
Qed.

Lemma validateField_hideSuccess p fieldName :
  (validateField fieldName (hideSuccess p)).1 = (validateField fieldName p).1.
Proof.
  destruct (get formFields fieldName) as [F|] eqn:HF.
  - destruct (formFields_not_success _ _ HF) as [He Hr].
    by destruct (validateField_local fieldName F (hideSuccess p) p HF) as [-> _];
      [by apply hideSuccess_other.. |].
  - by rewrite !(validateField_unknown fieldName) by done.
Qed.

(** X12. On a page with the control and the error slot of every field, a
    submit that fails the validation puts the focus on the first field, in
    the order of the declaration, whose value is invalid. *)
Theorem handleSubmit_focus_first_invalid p :
  complete p → (validateForm p).1 = false →
  ∃ before fieldName after,
    keys formFields = before ++ fieldName :: after ∧
    Forall (λ g, (validateField g p).1 = true) before ∧
    (validateField fieldName p).1 = false ∧
    activeElement (handleSubmit p).2 = Some fieldName.
Proof.
  intros Hc Hv.
  assert (Hsplit : forallb (λ g, (validateField g p).1) (keys formFields) = false).
  { unfold validateForm in Hv.
    rewrite validate_loop_result in Hv by apply keys_formFields_NoDup.
    by rewrite andb_true_r in Hv. }
  apply forallb_false_split in Hsplit as (before & f & after & Hk & Hb & Hf).
  exists before, f, after. split; [done |]. split; [done |]. split; [done |].
  rewrite <- validateForm_hideSuccess in Hv.
  unfold handleSubmit. rewrite (handleSubmit_validate_false _ Hv). cbn [snd].
  destruct (get formFields f) as [F|] eqn:HF;
    [| rewrite validateField_unknown in Hf; done].
  assert (element F = f) as <-.
  { apply get_formFields_cases in HF.
    repeat (apply elem_of_cons in HF as [[= -> -> _]|HF]; [done |]).
    by apply elem_of_nil in HF. }
  apply (focusFirstError_first _ before (element F) after F Hk); [| | done].
  - eapply Forall_impl; [exact Hb |]. intros g Hg.
    rewrite validateForm_marks by by apply complete_hideSuccess.
    by rewrite validateField_hideSuccess, Hg.
  - rewrite validateForm_marks by by apply complete_hideSuccess.
    by rewrite validateField_hideSuccess, Hf.
Qed.


Lemma sample_complete name email phone subject message :
  complete (Sample.page name email phone subject message).
Proof.
  intros f F Hget%get_formFields_cases.
  repeat (apply elem_of_cons in Hget as [[= _ -> ->]|Hget];
    [split; by eexists |]).
  by apply elem_of_nil in Hget.
Qed.

Lemma handleSubmit_focus_first_invalid_witness :
  ∃ before fieldName after,
    keys formFields = before ++ fieldName :: after ∧
    Forall (λ g, (validateField g Sample.invalid).1 = true) before ∧
    (validateField fieldName Sample.invalid).1 = false ∧
    activeElement (handleSubmit Sample.invalid).2 = Some fieldName.
Proof.
  apply handleSubmit_focus_first_invalid; [apply sample_complete | reflexivity].
Defined.

(** A form that passes the validation has no error text in any field
    whose control is in the page. *)
Lemma validateForm_true_field p fieldName field el :
  (validateForm p).1 = true →
  get formFields fieldName = Some field → nodes p !! element field = Some el →
  fieldError field (value el) = [].
Proof.
  intros Hv Hget Hel. unfold validateForm in Hv.
  rewrite validate_loop_result in Hv by apply keys_formFields_NoDup.
  rewrite andb_true_r, forallb_forall in Hv.
  pose proof (Hv fieldName) as Hf. rewrite <- list_elem_of_In in Hf.
  specialize (Hf (get_formFields_key _ _ Hget)).
  rewrite (validateField_known _ _ _ _ Hget Hel) in Hf.
  by destruct (fieldError field (value el)).
Qed.

(** *** What is sent *)

Lemma toScalarValues_scalarOf (s : jsstring) : Forall2 scalarOf s (toScalarValues s).
Proof.
  assert (H : ∀ n (s : jsstring), length s ≤ n → Forall2 scalarOf s (toScalarValues s)).
  { clear s. induction n as [|n IH]; intros [|c s] Hn; cbn [length] in Hn;
      try (constructor; fail); [lia |].
    cbn [toScalarValues].
    destruct (isHighSurrogate c) eqn:Hh.
    - destruct s as [|d s].
      + constructor; [| constructor]. right. by rewrite Hh.
      + destruct (isLowSurrogate d) eqn:Hl.
        * constructor; [by left |]. constructor; [by left |].
          apply IH. cbn [length] in Hn. lia.
        * constructor; [right; by rewrite Hh |]. apply IH. lia.
    - destruct (isLowSurrogate c) eqn:Hl.
      + constructor; [right; by rewrite Hh, Hl |]. apply IH. lia.
      + constructor; [by left |]. apply IH. lia. }
  by apply (H (length s)).
Qed.

Lemma surrogate_range c :
  isHighSurrogate c || isLowSurrogate c = true → (55296 ≤ c ≤ 57343)%N.
Proof.
  unfold isHighSurrogate, isLowSurrogate.
  rewrite orb_true_iff, !andb_true_iff, !N.leb_le. lia.
Qed.

Lemma scalarOf_isWhiteSpace c d : scalarOf c d → isWhiteSpace d = isWhiteSpace c.
Proof.
  intros [->|[Hs%surrogate_range ->]]; [done |].
  assert (Hle : ∀ k, (k < 55296)%N → (c <=? k)%N = false)
    by (intros; apply N.leb_gt; lia).
  assert (Heq : ∀ k, (k < 55296 ∨ 57343 < k)%N → (c =? k)%N = false)
    by (intros; apply N.eqb_neq; lia).
  unfold isWhiteSpace. rewrite !Hle, !Heq by lia. by rewrite !andb_false_r.
Qed.

Lemma scalarOf_notSpaceAt c d : scalarOf c d → notSpaceAt d = notSpaceAt c.
Proof.
  intros H. unfold notSpaceAt. rewrite (scalarOf_isWhiteSpace _ _ H).
  destruct H as [->|[Hs%surrogate_range ->]]; [done |].
  assert ((c =? 64)%N = false) as -> by (apply N.eqb_neq; lia). done.
Qed.

Lemma scalarOf_phoneClass c d : scalarOf c d → phoneClass d = phoneClass c.
Proof.
  intros H. unfold phoneClass, isDigit. rewrite (scalarOf_isWhiteSpace _ _ H).
  destruct H as [->|[Hs%surrogate_range ->]]; [done |].
  assert (Hle : ∀ k, (k < 55296)%N → (c <=? k)%N = false)
    by (intros; apply N.leb_gt; lia).
  assert (Heq : ∀ k, (k < 55296 ∨ 57343 < k)%N → (c =? k)%N = false)
    by (intros; apply N.eqb_neq; lia).
  rewrite !Hle, !Heq by lia. by rewrite !andb_false_r.
Qed.

Lemma scalarOf_eqb k c d :
  (k < 55296)%N → scalarOf c d → (k =? d)%N = (k =? c)%N.
Proof.
  intros Hk [->|[Hs%surrogate_range ->]]; [done |].
  transitivity false; [| symmetry]; apply N.eqb_neq; lia.
Qed.

(** A pattern whose classes do not tell a code unit from what stands for
    it matches the one string when it matches the other. *)
Lemma deriv_respects R r c d :
  respects R r → R c d → deriv c r = deriv d r ∧ respects R (deriv c r).
Proof.
  intros Hr Hcd. induction r as [| |p|r1 IH1 r2 IH2|r1 IH1 r2 IH2|r IH]; cbn in *.
  - done.
  - done.
  - rewrite (Hr c d Hcd). by destruct (p d).
  - destruct Hr as [H1 H2]. destruct (IH1 H1) as [-> ?], (IH2 H2) as [-> ?].
    by destruct (nullable r1).
  - destruct Hr as [H1 H2]. by destruct (IH1 H1) as [-> ?], (IH2 H2) as [-> ?].
  - by destruct (IH Hr) as [-> ?].
Qed.

Lemma test_respects R r (s s' : jsstring) :
  respects R r → Forall2 R s s' → test r s = test r s'.
Proof.
  intros Hr H. revert r Hr. induction H as [|c d s s' Hcd _ IH]; intros r Hr; [done |].
  cbn [test]. destruct (deriv_respects R r c d Hr Hcd) as [Heq Hd].
  rewrite <- Heq. by apply IH.
Qed.

Lemma trimStart_Forall2 (s s' : jsstring) :
  Forall2 scalarOf s s' → Forall2 scalarOf (trimStart s) (trimStart s').
Proof.
  induction 1 as [|c d s s' Hcd H IH]; [constructor |].
  cbn [trimStart]. rewrite (scalarOf_isWhiteSpace _ _ Hcd).
  destruct (isWhiteSpace c); [done | by constructor].
Qed.

Lemma Forall2_rev {A} (R : A → A → Prop) (l k : list A) :
  Forall2 R l k → Forall2 R (rev l) (rev k).
Proof.
  induction 1 as [|x y l k Hxy _ IH]; [constructor |].
  cbn [rev]. apply Forall2_app; [done | by repeat constructor].
Qed.

Lemma trim_Forall2 (s s' : jsstring) :
  Forall2 scalarOf s s' → Forall2 scalarOf (trim s) (trim s').
Proof.
  intros H. unfold trim, trimEnd.
  apply Forall2_rev, trimStart_Forall2, Forall2_rev. by apply trimStart_Forall2.
Qed.

Lemma blank_toScalarValues s : blank (toScalarValues s) = blank s.
Proof.
  pose proof (toScalarValues_scalarOf s) as H. unfold blank.
  rewrite <- (Forall2_length _ _ _ (trim_Forall2 _ _ H)).
  by destruct H.
Qed.

Lemma trim_length_toScalarValues s :
  length (trim (toScalarValues s)) = length (trim s).
Proof.
  symmetry. apply (Forall2_length scalarOf), trim_Forall2, toScalarValues_scalarOf.
Qed.

Lemma test_emailRegex_toScalarValues s :
  test emailRegex (toScalarValues s) = test emailRegex s.
Proof.
  symmetry. apply (test_respects scalarOf); [| apply toScalarValues_scalarOf].
  unfold emailRegex, Plus, Chr. cbn [respects].
  repeat split; intros c d H; symmetry;
    (by apply scalarOf_notSpaceAt) || (by apply scalarOf_eqb).
Qed.

Lemma test_phoneRegex_toScalarValues s :
  test phoneRegex (toScalarValues s) = test phoneRegex s.
Proof.
  symmetry. apply (test_respects scalarOf); [| apply toScalarValues_scalarOf].
  unfold phoneRegex, Plus. cbn [respects].
  repeat split; intros c d H; symmetry; by apply scalarOf_phoneClass.
Qed.

(** The validators do not tell a value from its scalar value string. *)
Lemma validator_toScalarValues field s :
  field ∈ formFields.*2 → validator field (toScalarValues s) = validator field s.
Proof.
  intros H. unfold formFields in H. cbn in H.
  repeat (apply elem_of_cons in H as [->|H];
    [cbn [validator];
     unfold validateName, validateEmail, validatePhone, validateSubject, validateMessage;
     by rewrite blank_toScalarValues, ?trim_length_toScalarValues,
       ?test_emailRegex_toScalarValues, ?test_phoneRegex_toScalarValues |]).
  by apply elem_of_nil in H.
Qed.

(** The error display writes nothing that [FormData] reads. *)
Lemma showError_formData fieldName message p key :
  formData_get key (showError fieldName message p) = formData_get key p.
Proof.
  unfold formData_get.
  destruct (get formFields fieldName) as [field|] eqn:Hget;
    [| by rewrite showError_unknown].
  destruct (showError_own fieldName message p field Hget) as [Hs He].
  destruct (decide (key = error field)) as [->|Hne1].
  - rewrite Hs. by destruct (nodes p !! error field).
  - destruct (decide (key = element field)) as [->|Hne2].
    + rewrite He. destruct (nodes p !! error field); by destruct (nodes p !! element field).
    + by rewrite (showError_other _ _ _ field).
Qed.

Lemma clearError_formData fieldName p key :
  formData_get key (clearError fieldName p) = formData_get key p.
Proof.
  unfold formData_get.
  destruct (get formFields fieldName) as [field|] eqn:Hget;
    [| by rewrite clearError_unknown].
  destruct (clearError_own fieldName p field Hget) as [Hs He].
  destruct (decide (key = error field)) as [->|Hne1].
  - rewrite Hs. by destruct (nodes p !! error field).
  - destruct (decide (key = element field)) as [->|Hne2].
    + rewrite He. destruct (nodes p !! error field); by destruct (nodes p !! element field).
    + by rewrite (clearError_other _ _ field).
Qed.

Lemma validateField_formData fieldName p key :
  formData_get key (validateField fieldName p).2 = formData_get key p.
Proof.
  unfold validateField.
  repeat case_match; cbn [snd];
    done || apply showError_formData || apply clearError_formData.
Qed.

Lemma validate_loop_formData l : ∀ b p key,
  formData_get key (foldl validateForm_each (b, p) l).2 = formData_get key p.
Proof.
  induction l as [|g l IH]; intros b p key; [done |].
  cbn [foldl]. rewrite validateForm_each_eq, IH. apply validateField_formData.
Qed.

Lemma hideSuccess_formData p key :
  formData_get key (hideSuccess p) = formData_get key p.
Proof.
  unfold formData_get. destruct (decide (key = successMessage)) as [->|Hne].
  - rewrite hideSuccess_own. by destruct (nodes p !! successMessage).
  - by rewrite hideSuccess_other.
Qed.

(** The record that [handleSubmit] builds holds what the controls held
    when the submit event was dispatched. *)
Lemma formData_validated p : formData (validateForm (hideSuccess p)).2 = formData p.
Proof.
  unfold formData, validateForm.
  by rewrite !validate_loop_formData, !hideSuccess_formData.
Qed.

Lemma formData_get_Some key p v :
  formData_get key p = Some v →
  ∃ el, nodes p !! key = Some el ∧ v = toScalarValues (value el).
Proof.
  unfold formData_get. destruct (nodes p !! key) as [el|]; [| done].
  destruct (form el && negb (disabled el)); [| done]. intros [= <-]. by exists el.
Qed.

(** A value read from a form that passes the validation passes the
    validator of its field. *)
Lemma formData_get_valid p fieldName field v :
  (validateForm p).1 = true →
  get formFields fieldName = Some field → required field = None →
  formData_get (element field) p = Some v → validator field v = [].
Proof.
  intros Hv Hget Hreq (el & Hel & ->)%formData_get_Some.
  pose proof (validateForm_true_field p fieldName field el Hv Hget Hel) as He.
  unfold fieldError in He. rewrite Hreq in He. cbn in He.
  rewrite validator_toScalarValues; [done |].
  apply get_elem_of in Hget. apply list_elem_of_fmap. by exists (fieldName, field).
Qed.

(** X13. What [handleSubmit] hands to the submission function is the
    record of the page on which the submit event was dispatched: the
    scalar value strings of the controls of the form that are not
    disabled.  Each value in it passes the validator of its field, as did
    the value of the control: no record with an invalid name, email,
    phone, subject or message is ever sent. *)
Theorem handleSubmit_sends_valid_data p text p1 :
  handleSubmit p = (Awaiting text, p1) →
  sent p1 = sent p ++ [formData p] ∧
  (∀ v, data_name (formData p) = Some v → validateName v = []) ∧
  (∀ v, data_email (formData p) = Some v → validateEmail v = []) ∧
  validatePhone (data_phone (formData p)) = [] ∧
  (∀ v, data_subject (formData p) = Some v → validateSubject v = []) ∧
  (∀ v, data_message (formData p) = Some v → validateMessage v = []).
Proof.
  intros (Hv & _ & _ & Hs & _)%handleSubmit_awaiting.
  rewrite formData_validated in Hs. split; [done |].
  unfold formData. cbn [data_name data_email data_phone data_subject data_message].
  split; [| split; [| split; [| split]]].
  - intros v. by apply (formData_get_valid p "name" (mkField "name" "name-error" validateName None)).
  - intros v. by apply (formData_get_valid p "email" (mkField "email" "email-error" validateEmail None)).
  - destruct (formData_get "phone" p) as [v|] eqn:Hget; [| done].
    destruct (truthy v) eqn:Ht; [| done].
    apply formData_get_Some in Hget as (el & Hel & ->).
    pose proof (validateForm_true_field p "phone" _ el Hv eq_refl Hel) as He.
    change (validatePhone (toScalarValues (value el)))
      with (validator (mkField "phone" "phone-error" validatePhone (Some false))
              (toScalarValues (value el))).
    rewrite validator_toScalarValues.
    + unfold fieldError in He. cbn [required validator] in *.
      destruct (blank (value el)) eqn:Hb; [| done].
      unfold validatePhone. by rewrite Hb.
    + unfold formFields. cbn [fmap list_fmap snd]. repeat constructor.
  - intros v. by apply (formData_get_valid p "subject" (mkField "subject" "subject-error" validateSubject None)).
  - intros v. by apply (formData_get_valid p "message" (mkField "message" "message-error" validateMessage None)).
Qed.

Lemma handleSubmit_sends_valid_data_witness :
  sent Sample.sending =
    [mkFormData (Some (lit "Jo")) (Some (lit "jo@x.com")) []
       (Some (lit "General")) (Some (lit "Hello there!"))] ∧
  validateMessage (lit "Hello there!") = [] ∧
  sent (handleSubmit Sample.unpaired).2 =
    [mkFormData (Some (lit "Jo")) (Some (lit "jo@x.com")) []
       (Some (lit "General")) (Some (lit "Hello there" ++ [65533%N]))] ∧
  validateMessage (lit "Hello there" ++ [65533%N]) = [].
Proof.
  assert (H : handleSubmit Sample.valid = (Awaiting (lit "Send Message"), Sample.sending))
    by (vm_compute; reflexivity).
  assert (H' : handleSubmit Sample.unpaired
               = (Awaiting (lit "Send Message"), (handleSubmit Sample.unpaired).2))
    by (vm_compute; reflexivity).
  destruct (handleSubmit_sends_valid_data Sample.valid _ _ H)
    as (Hs & _ & _ & _ & _ & Hm).
  destruct (handleSubmit_sends_valid_data Sample.unpaired _ _ H')
    as (Hs' & _ & _ & _ & _ & Hm').
  split; [rewrite Hs; by vm_compute |]. split; [by apply Hm |].
  split; [rewrite Hs'; by vm_compute | by apply Hm'].
Defined.

End FormState.

(** ** Success and reset *)

Section Success.

Implicit Types (p q : Page) (fieldName id : string) (field : Field) (text : jsstring).

(** The control of a field belongs to this field. *)
Lemma fieldOf_element fieldName field :
  get formFields fieldName = Some field → fieldOf (element field) = Some fieldName.
Proof.
  intros H%get_formFields_cases.
  repeat (apply elem_of_cons in H as [[= -> -> _]|H]; [reflexivity |]).
  by apply elem_of_nil in H.
Qed.

(** The blur of an element reaches the two elements of the field whose
    control it is, and no other. *)
Lemma blur_elsewhere old p id :
  (∀ fieldName field, get formFields fieldName = Some field →
     old = element field → id ≠ element field ∧ id ≠ error field) →
  nodes (blur old p) !! id = nodes p !! id.
Proof.
  intros Hout. unfold blur.
  destruct (fieldOf old) as [f|] eqn:Hf; [| done]. rewrite onBlur_eq.
  destruct (fieldOf_Some _ _ Hf) as (F & HF & Hel).
  destruct (Hout f F HF) as [? ?]; [done |]. by apply (validateField_other f F).
Qed.

Lemma showSuccess_own p :
  nodes (showSuccess p) !! successMessage =
    setRole (lit "alert") ∘ setDisplay (lit "block") <$> nodes p !! successMessage.
Proof.
  unfold showSuccess. destruct (nodes p !! successMessage) as [el|] eqn:H.
  - rewrite focus_success. cbn [nodes setNode]. by rewrite lookup_insert_eq.
  - by rewrite H.
Qed.

Lemma showSuccess_value p id :
  value <$> nodes (showSuccess p) !! id = value <$> nodes p !! id.
Proof.
  unfold showSuccess. destruct (nodes p !! successMessage) as [el|] eqn:H; [| done].
  rewrite focus_value. cbn [nodes setNode]. rewrite lookup_insert.
  case_decide; [subst; by rewrite H | done].
Qed.

Lemma showSuccess_focus p :
  is_Some (nodes p !! successMessage) →
  activeElement (showSuccess p) = Some successMessage.
Proof. intros [el Hel]. unfold showSuccess. by rewrite Hel. Qed.

(** Apart from the indicator, [showSuccess] reaches the field that has
    the focus, through its blur listener, and nothing else. *)
Lemma showSuccess_elsewhere p id :
  id ≠ successMessage →
  (∀ fieldName field, get formFields fieldName = Some field →
     activeElement p = Some (element field) → id ≠ element field ∧ id ≠ error field) →
  nodes (showSuccess p) !! id = nodes p !! id.
Proof.
  intros Hne Hout. unfold showSuccess.
  destruct (nodes p !! successMessage) as [el|]; [| done].
  unfold focus. cbn [activeElement setNode].
  destruct (activeElement p) as [old|] eqn:Ha;
    [case_bool_decide |]; cbn [nodes setActiveElement].
  - cbn [nodes setNode]. by rewrite lookup_insert_ne.
  - rewrite blur_elsewhere.
    + cbn [nodes setNode]. by rewrite lookup_insert_ne.
    + intros f F HF ->. by apply (Hout f F).
  - cbn [nodes setNode]. by rewrite lookup_insert_ne.
Qed.

Lemma showSuccess_focused p fieldName field :
  get formFields fieldName = Some field →
  activeElement p = Some (element field) → is_Some (nodes p !! successMessage) →
  nodes (showSuccess p) !! element field
    = nodes (validateField fieldName p).2 !! element field ∧
  nodes (showSuccess p) !! error field
    = nodes (validateField fieldName p).2 !! error field.
Proof.
  intros Hget Ha [el Hel]. destruct (formFields_not_success _ _ Hget) as [He Hr].
  unfold showSuccess. rewrite Hel. unfold focus. cbn [activeElement setNode].
  rewrite Ha, bool_decide_eq_false_2 by done. cbn [nodes setActiveElement].
  unfold blur. rewrite (fieldOf_element _ _ Hget), onBlur_eq.
  refine (proj2 (validateField_local fieldName field _ p Hget _ _));
    cbn [nodes setNode]; by rewrite lookup_insert_ne.
Qed.

(** X14. When the awaited call succeeds, on whatever the page has become
    during the wait: the success indicator is shown as an alert and gets
    the focus, a timer of 3000 milliseconds is set for the reset, the
    submit control is left as it is and no further call is made.  No value
    changes.  The field that had the focus loses it and is validated by
    its blur listener; every other element but the indicator stays as it
    was. *)
Theorem handleSubmit_success text q :
  let p2 := handleSubmit_fulfilled text q in
  nodes p2 !! successMessage =
    setRole (lit "alert") ∘ setDisplay (lit "block") <$> nodes q !! successMessage ∧
  (is_Some (nodes q !! successMessage) → activeElement p2 = Some successMessage) ∧
  submitButton p2 = submitButton q ∧ sent p2 = sent q ∧
  timers p2 = timers q ++ [(3000, ResetAfterSuccess text)] ∧
  (∀ id, value <$> nodes p2 !! id = value <$> nodes q !! id) ∧
  (∀ id, id ≠ successMessage →
     (∀ fieldName field, get formFields fieldName = Some field →
        activeElement q = Some (element field) →
        id ≠ element field ∧ id ≠ error field) →
     nodes p2 !! id = nodes q !! id) ∧
  (∀ fieldName field, get formFields fieldName = Some field →
     activeElement q = Some (element field) → is_Some (nodes q !! successMessage) →
     nodes p2 !! element field = nodes (validateField fieldName q).2 !! element field ∧
     nodes p2 !! error field = nodes (validateField fieldName q).2 !! error field).
Proof.
  destruct (showSuccess_rest q) as (Hb & Ht & Hs).
  unfold handleSubmit_fulfilled. cbn zeta.
  cbn [setTimeout nodes submitButton activeElement timers sent].
  rewrite Hb, Ht, Hs.
  split; [apply showSuccess_own |]. split; [apply showSuccess_focus |].
  split; [done |]. split; [done |]. split; [done |].
  split; [apply showSuccess_value |].
  split; [apply showSuccess_elsewhere | apply showSuccess_focused].
Qed.

Lemma handleSubmit_success_witness :
  let p2 := handleSubmit_fulfilled (lit "Send Message") Sample.edited in
  display <$> nodes p2 !! successMessage = Some (lit "block") ∧
  role <$> nodes p2 !! successMessage = Some (Some (lit "alert")) ∧
  activeElement p2 = Some successMessage ∧
  disabled <$> submitButton p2 = Some true ∧
  timers p2 = [(3000, ResetAfterSuccess (lit "Send Message"))] ∧
  value <$> nodes p2 !! "message" = Some (lit "Hi") ∧
  textContent <$> nodes p2 !! "message-error" =
    Some (lit "Message must be at least 10 characters") ∧
  nodes p2 !! "name" = nodes Sample.edited !! "name".
Proof.
  pose proof (handleSubmit_success (lit "Send Message") Sample.edited)
    as (H1 & H2 & H3 & _ & H5 & H6 & _ & H8).
  assert (Hs : is_Some (nodes Sample.edited !! successMessage))
    by (eexists; vm_compute; reflexivity).
  destruct (H8 "message" (mkField "message" "message-error" validateMessage None)
              eq_refl eq_refl Hs) as [_ H9].
  cbn [error] in H9.
  cbn zeta. rewrite H1, H3, H5, (H6 "message"), H9.
  split; [by vm_compute |]. split; [by vm_compute |].
  split; [by apply H2 |].
  split; [by vm_compute |]. split; [by vm_compute |]. split; [by vm_compute |].
  split; [by vm_compute |].
  by vm_compute.
Defined.

Lemma clearError_other_field fieldName p other field :
  get formFields other = Some field → other ≠ fieldName →
  nodes (clearError fieldName p) !! element field = nodes p !! element field ∧
  nodes (clearError fieldName p) !! error field = nodes p !! error field.
Proof.
  intros HG Hne. destruct (get formFields fieldName) as [F|] eqn:HF.
  - destruct (formFields_disjoint _ _ _ _ HF HG) as (? & ? & ? & ?); [done |].
    split; by apply (clearError_other _ _ F).
  - by rewrite (clearError_unknown _ _ HF).
Qed.

Lemma clear_loop_other (l : list string) : ∀ p fieldName field,
  get formFields fieldName = Some field → fieldName ∉ l →
  nodes (foldl (λ q g, clearError g q) p l) !! element field = nodes p !! element field ∧
  nodes (foldl (λ q g, clearError g q) p l) !! error field = nodes p !! error field.
Proof.
  induction l as [|g l IH]; intros p f F HF Hnot; [done |].
  apply not_elem_of_cons in Hnot as [Hne Hnot]. cbn [foldl].
  destruct (IH (clearError g p) f F HF Hnot) as [-> ->].
  by apply (clearError_other_field g p f F).
Qed.

Lemma clear_loop_own (l : list string) : ∀ p fieldName field,
  NoDup l → fieldName ∈ l → get formFields fieldName = Some field →
  nodes (foldl (λ q g, clearError g q) p l) !! element field
    = nodes (clearError fieldName p) !! element field ∧
  nodes (foldl (λ q g, clearError g q) p l) !! error field
    = nodes (clearError fieldName p) !! error field.
Proof.
  induction l as [|g l IH]; intros p f F Hnd Hin HF; [by apply elem_of_nil in Hin |].
  apply NoDup_cons in Hnd as [Hnot Hnd]. cbn [foldl].
  destruct (decide (f = g)) as [->|Hne].
  - by apply (clear_loop_other l _ g F).
  - apply elem_of_cons in Hin as [?|Hin]; [done |].
    destruct (IH (clearError g p) f F Hnd Hin HF) as [-> ->].
    destruct (clearError_other_field g p f F HF) as [He Hr]; [done |].
    destruct (clearError_own f (clearError g p) F HF) as [-> ->].
    destruct (clearError_own f p F HF) as [-> ->].
    by rewrite He, Hr.
Qed.

Lemma clear_loop_outside (l : list string) : ∀ p id,
  (∀ fieldName field, get formFields fieldName = Some field →
     id ≠ element field ∧ id ≠ error field) →
  nodes (foldl (λ q g, clearError g q) p l) !! id = nodes p !! id.
Proof.
  induction l as [|g l IH]; intros p id Hout; [done |].
  cbn [foldl]. rewrite IH by done.
  destruct (get formFields g) as [G|] eqn:HG.
  - destruct (Hout g G HG). by apply (clearError_other g p G).
  - by rewrite clearError_unknown.
Qed.

(** X15. [resetForm] clears every field: the message of each error slot is
    emptied and hidden and the field is not marked invalid any more, every
    control of the form holds its default value, and the success indicator
    is hidden; the submit control, the timers and the calls made are not
    touched. *)
Theorem resetForm_clears p :
  let p' := resetForm p in
  (∀ fieldName field, get formFields fieldName = Some field →
     textContent <$> nodes p' !! error field = (λ _, []) <$> nodes p !! error field ∧
     display <$> nodes p' !! error field =
       (λ _, lit "none") <$> nodes p !! error field ∧
     (is_Some (nodes p !! error field) → markedInvalid p' fieldName = false)) ∧
  (∀ id, value <$> nodes p' !! id =
           (λ e, if form e then defaultValue e else value e) <$> nodes p !! id) ∧
  display <$> nodes p' !! successMessage =
    (λ _, lit "none") <$> nodes p !! successMessage ∧
  submitButton p' = submitButton p ∧ timers p' = timers p ∧ sent p' = sent p.
Proof.
  cbn zeta. split; [| split; [apply resetForm_value | split; [| apply resetForm_rest]]].
  - intros f F Hget. destruct (formFields_not_success _ _ Hget) as [He Hr].
    assert (Hkey : f ∈ keys formFields) by by apply (get_formFields_key _ F).
    destruct (clear_loop_own (keys formFields) (reset p) f F keys_formFields_NoDup Hkey Hget)
      as [Hel Herr].
    destruct (clearError_own f (reset p) F Hget) as [Hs Hm].
    unfold resetForm, markedInvalid.
    rewrite Hget, !hideSuccess_other, Hel, Herr, Hs, Hm by done.
    cbn [reset nodes]. rewrite !lookup_fmap.
    destruct (nodes p !! error F) as [err|]; cbn [fmap option_fmap option_map].
    + split; [done |]. split; [done |]. intros _.
      by destruct (nodes p !! element F).
    + split; [done |]. split; [done |]. by intros [? ?].
  - unfold resetForm. rewrite hideSuccess_own, clear_loop_outside.
    + cbn [reset nodes]. rewrite lookup_fmap.
      by destruct (nodes p !! successMessage).
    + intros f F [? ?]%formFields_not_success. by split.
Qed.

End Success.

(** ** Live revalidation *)

Section Listeners.

Implicit Types (p q : Page) (fieldName id : string) (field : Field).

(** X16. On a field with its two elements: after a blur the field is
    marked invalid exactly when its value has an error; after an input
    event it is marked invalid exactly when it was marked before and the
    value still has an error, so typing never raises a mark and removes it
    as soon as the value is valid; an input on an unmarked field changes
    nothing at all. *)
Theorem listeners_mark fieldName field p el :
  get formFields fieldName = Some field →
  nodes p !! element field = Some el → is_Some (nodes p !! error field) →
  markedInvalid (onBlur fieldName p) fieldName = truthy (fieldError field (value el)) ∧
  markedInvalid (onInput fieldName p) fieldName =
    markedInvalid p fieldName && truthy (fieldError field (value el)) ∧
  (markedInvalid p fieldName = false → onInput fieldName p = p).
Proof.
  intros Hget Hel Herr.
  assert (Hmark : markedInvalid (validateField fieldName p).2 fieldName
                  = truthy (fieldError field (value el))).
  { rewrite (validateField_mark _ _ _ Hget) by (done || by eexists).
    rewrite (validateField_known _ _ _ _ Hget Hel). by destruct (truthy _). }
  unfold onBlur, onInput. rewrite Hget, Hel. split; [done |].
  assert (Hp : markedInvalid p fieldName
               = bool_decide (ariaInvalid el = Some (lit "true"))).
  { unfold markedInvalid. by rewrite Hget, Hel. }
  rewrite <- Hp. destruct (markedInvalid p fieldName) eqn:Hm; [done |].
  split; [| done]. by rewrite Hm.
Qed.

Lemma listeners_mark_witness :
  markedInvalid Sample.corrected "email" = true ∧
  markedInvalid (onInput "email" Sample.corrected) "email" = false ∧
  markedInvalid (onBlur "message" Sample.valid) "message" = false ∧
  onInput "name" Sample.valid = Sample.valid.
Proof.
  split; [by vm_compute |].
  assert (Hel : ∃ el, nodes Sample.corrected !! "email" = Some el
                      ∧ value el = lit "jo@x.com") by (by eexists; vm_compute).
  destruct Hel as (el & Hel & Hv).
  destruct (listeners_mark "email" (mkField "email" "email-error" validateEmail None)
              Sample.corrected el eq_refl Hel) as (_ & H2 & _);
    [by eexists; vm_compute |].
  split; [rewrite H2, Hv; by vm_compute |].
  destruct (listeners_mark "message" (mkField "message" "message-error" validateMessage None)
              Sample.valid (Sample.input (lit "Hello there!")) eq_refl eq_refl)
    as (H1 & _ & _); [by eexists |].
  split; [by rewrite H1 |].
  destruct (listeners_mark "name" (mkField "name" "name-error" validateName None)
              Sample.valid (Sample.input (lit "Jo")) eq_refl eq_refl)
    as (_ & _ & H3); [by eexists |].
  by apply H3.
Defined.

End Listeners.

(** ** Invariants of an attempt *)

Section AttemptInvariants.

Import Attempt.

Context {E : Type}.
Implicit Types (p q : Page) (c : Control E) (ev : Event E) (text : jsstring).

Lemma run_Forall (I : Control E → Page → Prop) (ok : Event E → bool) :
  (∀ c ev p c' p', ok ev = true → I c p → step c ev p = Some (c', p') → I c' p') →
  ∀ evs c p, forallb ok evs = true → I c p →
    Forall (λ cp, I cp.1 cp.2) (run c p evs).
Proof.
  intros Hstep evs. induction evs as [|ev evs IH]; intros c p Hok HI; [constructor |].
  cbn [forallb] in Hok. apply andb_true_iff in Hok as [Hev Hok]. cbn [run].
  destruct (step c ev p) as [[c' p']|] eqn:Hs; [| constructor].
  assert (HI' : I c' p') by by apply (Hstep c ev p).
  constructor; [done | by apply IH].
Qed.

Lemma forallb_true {A} (xs : list A) : forallb (λ _, true) xs = true.
Proof. by induction xs. Qed.

(** X18. Through an attempt that starts with the submit control enabled,
    the control is disabled, under the label "Sending...", exactly in the
    states Sending, Succeeded and Failed; in every other state it is
    enabled under the label that it had at the start. *)
Theorem control_follows_state (evs : list (Event E)) p button :
  submitButton p = Some button → disabled button = false →
  Forall (λ cp,
            disabled <$> submitButton cp.2 = Some (busy (state cp.1)) ∧
            textContent <$> submitButton cp.2 =
              Some (if busy (state cp.1) then lit "Sending..." else textContent button))
    (run NotRunning p evs).
Proof.
  intros Hb Hd.
  pose (I := λ (c : Control E) (q : Page),
    match c with
    | NotRunning | Entered =>
        ∃ b, submitButton q = Some b ∧ disabled b = false ∧
             textContent b = textContent button
    | Suspended text | Resolved text | Caught _ text =>
        text = textContent button ∧
        ∃ b, submitButton q = Some b ∧ disabled b = true ∧
             textContent b = lit "Sending..."
    end).
  assert (HI : Forall (λ cp, I cp.1 cp.2) (run NotRunning p evs)).
  { apply (run_Forall I (λ _, true)); [| apply forallb_true | by exists button].
    intros c ev q c' q' _ Hc Hs.
    destruct c as [| |text|text|reason text];
      destruct ev as [| |[|reason']|delay [data|text']];
      try discriminate Hs; cbn [step] in Hs; cbn [I] in Hc.
    - apply Some_pair_inv in Hs as [<- <-]. cbn [I].
      by destruct (hideSuccess_rest q) as (-> & _).
    - destruct Hc as (b & Hq & Hbd & Hbt).
      destruct (validateForm q).1 eqn:Hv.
      + rewrite (handleSubmit_validate_true _ Hv), Hq in Hs.
        apply Some_pair_inv in Hs as [<- <-]. cbn [I]. split; [done |].
        by eexists.
      + rewrite (handleSubmit_validate_false _ Hv) in Hs.
        apply Some_pair_inv in Hs as [<- <-]. cbn [I].
        destruct (focusFirstError_rest q) as (_ & -> & _).
        destruct (validateForm_rest q) as (-> & _). by exists b.
    - apply Some_pair_inv in Hs as [<- <-]. cbn [I].
      unfold handleSubmit_fulfilled. cbn [setTimeout submitButton].
      by destruct (showSuccess_rest q) as (-> & _).
    - by apply Some_pair_inv in Hs as [<- <-].
    - destruct (takeTimer _ _) as [ts|]; [| done].
      apply Some_pair_inv in Hs as [<- <-]. cbn [I].
      unfold handleSubmit_fulfilled. cbn [setTimeout submitButton].
      by destruct (showSuccess_rest (setTimers ts q)) as (-> & _).
    - destruct (takeTimer _ _) as [ts|]; [| done]. case_bool_decide; [| done].
      apply Some_pair_inv in Hs as [<- <-]. cbn [I]. subst text'.
      destruct Hc as (-> & b & Hq & _).
      unfold resetAfterSuccess.
      destruct (restoreButton_spec (textContent button) (resetForm (setTimers ts q)))
        as (_ & -> & _).
      destruct (resetForm_rest (setTimers ts q)) as (-> & _).
      cbn [setTimers submitButton]. rewrite Hq. by eexists.
    - apply Some_pair_inv in Hs as [<- <-]. cbn [I].
      destruct Hc as (-> & b & Hq & _).
      destruct (handleSubmit_rejected_spec reason (textContent button) q)
        as (_ & -> & _).
      rewrite Hq. by eexists. }
  eapply Forall_impl; [exact HI |]. intros [c q]. cbn [fst snd]. subst I. cbn beta.
  destruct c; cbn [state busy];
    [intros (b & Hq & Hbd & Hbt) | intros (b & Hq & Hbd & Hbt)
     | intros (_ & b & Hq & Hbd & Hbt) | intros (_ & b & Hq & Hbd & Hbt)
     | intros (_ & b & Hq & Hbd & Hbt)];
    rewrite Hq; cbn [fmap option_fmap option_map]; by rewrite Hbd, Hbt.
Qed.

End AttemptInvariants.

Section AttemptInvariantExamples.

Import Attempt.

Lemma control_follows_state_witness :
  Forall (λ cp : Control nat * Page,
            disabled <$> submitButton cp.2 = Some (busy (state cp.1)) ∧
            textContent <$> submitButton cp.2 =
              Some (if busy (state cp.1) then lit "Sending..." else lit "Send Message"))
    (run NotRunning Sample.valid Sample.rejection).
Proof. by apply (control_follows_state Sample.rejection Sample.valid Sample.button). Defined.

End AttemptInvariantExamples.

(** ** The session: one attempt at a time *)

Section SessionProperties.
Import Session.

Context {E : Type}.
Implicit Types (p q : Page) (st : State) (a : Action E) (text : jsstring)
  (ts : list (nat * Callback)).

(** The submit listener on a page with a submit control: it returns, or
    it takes the control and calls the submission function. *)
Lemma handleSubmit_cases p button :
  submitButton p = Some button →
  (∃ p', handleSubmit p = (Returned, p') ∧
     submitButton p' = Some button ∧ timers p' = timers p ∧ sent p' = sent p) ∨
  (∃ p', handleSubmit p = (Awaiting (textContent button), p') ∧
     submitButton p' =
       Some (setTextContent (lit "Sending...") (setDisabled true button)) ∧
     timers p' = timers p ++ [(1000, SubmissionDone (formData p))] ∧
     sent p' = sent p ++ [formData p]).
Proof.
  intros Hb. destruct (validateForm p).1 eqn:Hv.
  - right. eexists. split; [by apply handleSubmit_valid |].
    destruct (validateForm_rest (hideSuccess p)) as (_ & _ & Ht & Hs).
    destruct (hideSuccess_rest p) as (_ & _ & Ht' & Hs').
    cbn [simulateFormSubmission setSubmitButton setTimeout submitButton timers sent].
    by rewrite formData_validated, Ht, Ht', Hs, Hs'.
  - left. eexists. rewrite <- validateForm_hideSuccess in Hv.
    unfold handleSubmit. rewrite (handleSubmit_validate_false _ Hv).
    split; [done |].
    destruct (focusFirstError_rest (hideSuccess p)) as (_ & -> & -> & ->).
    destruct (validateForm_rest (hideSuccess p)) as (-> & _ & -> & ->).
    by destruct (hideSuccess_rest p) as (-> & _ & -> & ->).
Qed.

Lemma fire_split t ts ts' :
  fire t ts = Some ts' → ∃ l1 l2, ts = l1 ++ t :: l2 ∧ ts' = l1 ++ l2.
Proof.
  revert ts'. induction ts as [|t' ts IH]; intros ts'; cbn [fire]; [done |].
  case_bool_decide as Heq.
  - intros [= <-]. exists [], ts. by subst.
  - case_bool_decide; [done |].
    destruct (fire t ts) as [r|]; [| done]. intros [= <-].
    destruct (IH r eq_refl) as (l1 & l2 & -> & ->). by exists (t' :: l1), l2.
Qed.

Lemma resets_app ts ts' : resets (ts ++ ts') = resets ts + resets ts'.
Proof. unfold resets. by rewrite List.filter_app, length_app. Qed.

Lemma resets_fire t ts ts' :
  fire t ts = Some ts' → resets ts = resets ts' + (if isReset t then 1 else 0).
Proof.
  intros (l1 & l2 & -> & ->)%fire_split.
  rewrite !resets_app. change (t :: l2) with ([t] ++ l2). rewrite resets_app.
  unfold resets at 2. cbn [List.filter]. destruct (isReset t); cbn [length]; lia.
Qed.

Lemma sending_discard (prs : list Promise) n text p p' :
  prs !! n = Some (Awaited text) →
  length (sending (mkState prs p)) =
    S (length (sending (mkState (<[n := Discarded]> prs) p'))).
Proof.
  unfold sending. cbn [promises].
  revert n. induction prs as [|pr prs IH]; intros [|n] H; try done.
  - injection H as ->. done.
  - cbn [lookup list_lookup] in H. specialize (IH n H).
    cbn [insert list_insert omap list_omap]. destruct pr; cbn [length]; by rewrite ?IH.
Qed.

Lemma typed_rest id v p :
  submitButton (typed id v p) = submitButton p ∧
  timers (typed id v p) = timers p ∧ sent (typed id v p) = sent p.
Proof.
  unfold typed. destruct (nodes p !! id) as [el|]; [| done].
  destruct (form el && negb (disabled el)); [| done]. cbn zeta.
  destruct (fieldOf id) as [f|]; [| done]. unfold onInput.
  destruct (get formFields f) as [F|]; [| done].
  destruct (nodes _ !! element F) as [e|]; [| done].
  case_bool_decide; [| done].
  by destruct (validateField_rest f (setNode id (setValue v el) p)) as (-> & _ & -> & ->).
Qed.

Lemma unfocus_rest p :
  submitButton (unfocus p) = submitButton p ∧
  timers (unfocus p) = timers p ∧ sent (unfocus p) = sent p.
Proof.
  unfold unfocus. destruct (activeElement p) as [old|]; [| done].
  cbn zeta. cbn [submitButton timers sent].
  by destruct (blur_rest old p) as (-> & _ & -> & ->).
Qed.

Lemma step_guarded st a st' : guarded st → step st a = Some st' → guarded st'.
Proof.
  intros (b & Hb & Hle & Hen). destruct st as [prs p]. cbn [page] in *.
  destruct a as [|id| |id v|delay [data|text]|n reason]; cbn [step page promises].
  - rewrite Hb. destruct (disabled b) eqn:Hd.
    { intros [= <-]. exists b. cbn [page].
      split; [done |]. split; [done |]. by rewrite Hd. }
    specialize (Hen eq_refl). intros [= <-]. unfold submit. cbn [page promises].
    destruct (handleSubmit_cases p b Hb) as [(p' & -> & Hb' & Ht' & _)|(p' & -> & Hb' & Ht' & _)].
    + exists b. cbn [page]. rewrite Ht'. unfold sending in *. cbn [promises] in *.
      split; [done |]. split; [lia | done].
    + eexists. cbn [page]. split; [exact Hb' |]. rewrite Ht', resets_app.
      unfold sending in *. cbn [promises] in *. rewrite omap_app, length_app.
      cbn. split; [lia | done].
  - intros [= <-]. exists b. cbn [page].
    destruct (focus_rest id p) as (-> & -> & _). by rewrite Hb.
  - intros [= <-]. exists b. cbn [page].
    destruct (unfocus_rest p) as (-> & -> & _). by rewrite Hb.
  - intros [= <-]. exists b. cbn [page].
    destruct (typed_rest id v p) as (-> & -> & _). by rewrite Hb.
  - destruct (fire _ _) as [ts|] eqn:Hf; [| done].
    apply resets_fire in Hf. cbn [isReset snd] in Hf.
    destruct prs as [|[text|] prs]; [done | |]; intros [= <-]; exists b; cbn [page].
    + unfold handleSubmit_fulfilled. cbn [setTimeout submitButton timers].
      destruct (showSuccess_rest (Attempt.setTimers ts p)) as (-> & -> & _).
      cbn [Attempt.setTimers submitButton timers]. rewrite resets_app.
      unfold sending in *. cbn [promises omap list_omap length] in *.
      split; [done |]. cbn. split; [lia | intros Hd; specialize (Hen Hd); lia].
    + cbn [Attempt.setTimers submitButton timers].
      unfold sending in *. cbn [promises omap list_omap] in *.
      split; [done |]. split; [lia |]. intros Hd. specialize (Hen Hd). lia.
  - destruct (fire _ _) as [ts|] eqn:Hf; [| done].
    apply resets_fire in Hf. cbn [isReset snd] in Hf. intros [= <-].
    unfold guarded, resetAfterSuccess. cbn [page].
    destruct (restoreButton_spec text (resetForm (Attempt.setTimers ts p)))
      as (_ & -> & -> & _).
    destruct (resetForm_rest (Attempt.setTimers ts p)) as (-> & -> & _).
    cbn [Attempt.setTimers submitButton timers]. rewrite Hb.
    eexists. split; [done |]. unfold sending in *. cbn [promises] in *.
    split; [lia |]. intros _. lia.
  - destruct (prs !! n) as [[text|]|] eqn:Hn; [| done | done]. intros [= <-].
    pose proof (sending_discard prs n text p
                  (handleSubmit_rejected reason text p) Hn) as Hlen.
    unfold guarded. cbn [page].
    destruct (handleSubmit_rejected_spec reason text p) as (_ & -> & _ & -> & _).
    rewrite Hb. eexists. split; [done |]. split; [lia |]. intros _. lia.
Qed.

Lemma run_guarded actions : ∀ st, guarded st → Forall guarded (run (E := E) st actions).
Proof.
  induction actions as [|a actions IH]; intros st Hst; [constructor |].
  cbn [run]. destruct (step st a) as [st'|] eqn:Hs; [| constructor].
  assert (guarded st') by by apply (step_guarded st a).
  constructor; [done | by apply IH].
Qed.

(** C5. In a session on a page whose submit control is enabled at the
    start, whatever the visitor does and whenever the timers run out or a
    promise is rejected: one attempt at most is in the Sending state, and
    while one is, the submit control is disabled and a submit request is a
    no-op, which leaves the page as it is and makes no call of the
    submission function. *)
Theorem submit_guard (actions : list (Action E)) p button :
  submitButton p = Some button → disabled button = false → timers p = [] →
  Forall (λ st,
            length (sending st) ≤ 1 ∧
            (sending st ≠ [] →
               disabled <$> submitButton (page st) = Some true ∧
               step (E := E) st Submit = Some st))
    (run (start p) actions).
Proof.
  intros Hb Hd Ht.
  assert (H0 : guarded (start p)).
  { exists button. cbn [start page]. rewrite Ht. split; [done |]. cbn. split; [lia | done]. }
  eapply Forall_impl; [by apply run_guarded |].
  intros st (b & Hst & Hle & Hen). split; [lia |]. intros Hs.
  assert (Hdis : disabled b = true).
  { destruct (disabled b); [done |]. specialize (Hen eq_refl).
    destruct (sending st); [done | cbn [length] in Hen; lia]. }
  split.
  - rewrite Hst. cbn [fmap option_fmap option_map]. by rewrite Hdis.
  - unfold step. cbn zeta. by rewrite Hst, Hdis.
Qed.

End SessionProperties.

Section SessionExamples.

Import Session.

Lemma submit_guard_witness :
  Forall (λ st,
            length (sending st) ≤ 1 ∧
            (sending st ≠ [] →
               disabled <$> submitButton (page st) = Some true ∧
               step (E := nat) st Submit = Some st))
    (run (start Sample.valid) Sample.visit) ∧
  (λ st, (length (sending st), length (sent (page st))))
    <$> run (start Sample.valid) Sample.visit
    = [(1, 1); (1, 1); (1, 1); (1, 1); (0, 1); (0, 1); (0, 1)].
Proof.
  split; [| by vm_compute].
  by apply (submit_guard Sample.visit Sample.valid Sample.button).
Defined.

End SessionExamples.
